(** * Bulk video generation: the export job of [main.py]

    A shallow embedding of [VideoExportTask.run], of its helper
    [crossfade_consecutive_clips] and of the dispatch loop of
    [CSVAudioTool.start_export], together with the properties of the
    compilation engine that the specification states about them.

    Conventions of the embedding.
    - Python [str] values are [string]s of bytes; the character functions
      ([lower], [strip]) act on the ASCII range.
    - Python [int]s are [Z]; durations (Python floats) are rationals [Q],
      compared with [==].
    - [os.path] is [posixpath]; the file system is a finite map from
      absolute paths to nodes, and a relative path handed to an [os.path]
      test is taken relative to the working directory of the process.
    - The job is written in a state-and-exception monad over the [world]
      of the process: file system, random generator, standard output and
      the log of the calls made on MoviePy.
    - MoviePy clips are lazy descriptions of media; they are modelled by the
      description itself: where the pixels come from, which effects were
      applied, which size and duration the clip object reports. *)

From stdpp Require Import gmap strings list pretty.
From Stdlib Require Import Ascii QArith Qround Lqa.

Local Open Scope Z_scope.

(** ** Strings: the [str] methods and [posixpath] functions the job uses *)

Module Str.

Definition is_upper (a : ascii) : bool :=
  let n := Ascii.N_of_ascii a in ((65 <=? n) && (n <=? 90))%N.

Definition lower_ascii (a : ascii) : ascii :=
  if is_upper a then Ascii.ascii_of_N (Ascii.N_of_ascii a + 32) else a.

(** [s.lower()] *)
Fixpoint lower (s : string) : string :=
  match s with
  | EmptyString => EmptyString
  | String a s' => String (lower_ascii a) (lower s')
  end.

(** [s.startswith(p)] *)
Fixpoint startswith (p s : string) : bool :=
  match p, s with
  | EmptyString, _ => true
  | String a p', String b s' => bool_decide (a = b) && startswith p' s'
  | String _ _, EmptyString => false
  end.

(** [s.endswith(x)] *)
Definition endswith (x s : string) : bool :=
  startswith (String.rev x) (String.rev s).

(** [s.endswith((x1, ..., xn))]: true when one of the suffixes matches. *)
Definition endswith_any (xs : list string) (s : string) : bool :=
  existsb (fun x => endswith x s) xs.

(** Python's [str.isspace] on the ASCII range: tab, the line breaks, the
    four separators 28..31 and the blank. *)
Definition is_space (a : ascii) : bool :=
  let n := Ascii.N_of_ascii a in
  (((9 <=? n) && (n <=? 13)) || ((28 <=? n) && (n <=? 32)))%N.

Fixpoint lstrip (s : string) : string :=
  match s with
  | EmptyString => EmptyString
  | String a s' => if is_space a then lstrip s' else s
  end.

(** [s.strip()] *)
Definition strip (s : string) : string :=
  String.rev (lstrip (String.rev (lstrip s))).

(** Truth value of a [str]: the empty string is false. *)
Definition truthy (s : string) : bool :=
  match s with EmptyString => false | String _ _ => true end.


End Str.

Module Path.

(** [os.path.isabs] *)
Definition isabs (p : string) : bool := Str.startswith "/" p.

(** [os.path.join(a, b)] *)
Definition join (a b : string) : string :=
  if Str.startswith "/" b then b
  else if negb (Str.truthy a) || Str.endswith "/" a then a +:+ b
  else a +:+ "/" +:+ b.

End Path.

(** ** Media, clips and the file system *)

(** What a file holds, as far as MoviePy can tell when it opens it. *)
Inductive content : Type :=
| Image (w h : Z)                 (* a decodable picture *)
| Video (w h : Z) (d : Q)         (* a decodable film of duration [d] *)
| Audio (d : Q)                   (* a decodable sound of duration [d] *)
| Junk.                           (* bytes no decoder accepts *)

Inductive node : Type :=
| File (c : content)
| Dir.

(** Where the pixels of a clip come from. *)
Inductive origin : Type :=
| ImageFile (path : string)       (* [ImageClip(path)] *)
| VideoFile (path : string).      (* [VideoFileClip(path)] *)

(** The MoviePy effects the job applies, with their arguments. *)
Inductive fx : Type :=
| Resize_newsize (w h : Z)            (* [.resize(newsize=(w, h))] *)
| Resize_height (h : Z)               (* [.resize(height=h)] *)
| Crop (x_center : Q) (width : Z)     (* [.crop(x_center=.., width=..)] *)
| On_color (w h : Z)                  (* [.on_color(size=(w, h), color=(0,0,0), pos=('center','center'))] *)
| Crossfadein (d : Q).                (* [.crossfadein(d)] *)

(** The picture part of a clip: origin, effects in the order they were
    applied, and the size the clip object reports ([clip.w], [clip.h]). *)
Record frame : Type := mkFrame {
  frame_origin : origin;
  frame_fx : list fx;
  frame_w : Z;
  frame_h : Z
}.

(** A clip with a duration: what [set_duration] returns on an image and
    what [VideoFileClip] returns on a film. *)
Record clip : Type := mkClip {
  clip_frame : frame;
  clip_duration : Q
}.

Definition apply_fx (f : fx) (w h : Z) (fr : frame) : frame :=
  {| frame_origin := frame_origin fr;
     frame_fx := frame_fx fr ++ [f];
     frame_w := w;
     frame_h := h |}.

(** [.resize(newsize=(w, h))]: the clip takes exactly the given size. *)
Definition resize_newsize (w h : Z) (fr : frame) : frame :=
  apply_fx (Resize_newsize w h) w h fr.

(** [.resize(height=h)]: the height becomes [h] and the width is scaled by
    the same factor, [int(w * h / clip.h)]. *)
Definition resize_height (h : Z) (fr : frame) : frame :=
  apply_fx (Resize_height h) (Z.quot (frame_w fr * h) (frame_h fr)) h fr.

(** [.crop(x_center=xc, width=width)]: the columns from [xc - width/2] to
    [xc + width/2]; the height is kept. *)
Definition crop (x_center : Q) (width : Z) (fr : frame) : frame :=
  apply_fx (Crop x_center width) width (frame_h fr) fr.

(** [.on_color(size=(w, h), color=(0, 0, 0), pos=('center', 'center'))]: the
    clip centred on a black canvas of the given size. *)
Definition on_color (w h : Z) (fr : frame) : frame :=
  apply_fx (On_color w h) w h fr.

Definition on_frame (f : frame -> frame) (c : clip) : clip :=
  {| clip_frame := f (clip_frame c); clip_duration := clip_duration c |}.

(** [.crossfadein(d)]: same size and duration, opacity rising over the
    first [d] seconds. *)
Definition crossfadein (d : Q) (c : clip) : clip :=
  on_frame (fun fr => apply_fx (Crossfadein d) (frame_w fr) (frame_h fr) fr) c.

(** [.set_duration(d)] on an image clip. *)
Definition set_duration (d : Q) (fr : frame) : clip :=
  {| clip_frame := fr; clip_duration := d |}.

(** The video of the job: a single clip, or the composite that
    [concatenate_videoclips(parts, method="compose", padding=p)] builds. *)
#[warnings="-register-all"]
Inductive vclip : Type :=
| Single (c : clip)
| Concat (parts : list vclip) (padding : Q).

(** The audio effects of the job. *)
Inductive afx : Type :=
| Audio_loop (nloops : Z) (duration : Q)   (* [audio_loop(a, duration=..)] *)
| Subclip (t_start t_end : Q).             (* [a.subclip(t_start, t_end)] *)

Record aclip : Type := mkAclip {
  aclip_path : string;
  aclip_fx : list afx;
  aclip_duration : Q
}.

(** The final clip handed to [write_videofile]: video and attached audio. *)
Record movie : Type := mkMovie {
  movie_video : vclip;
  movie_audio : option aclip
}.

(** *** Timing of a concatenation *)

Definition Qsum (l : list Q) : Q := foldr Qplus 0%Q l.

(** Modelled from the spec: MoviePy's [concatenate_videoclips] is not part
    of the repository. The specification lists it as the media backend's
    [concatenate(segments, mode, padding)] and fixes its timing: the total
    duration is the sum of the segment durations, with the padding counted
    once per join (with padding [-f], [f] is subtracted between each pair
    of neighbours). An empty list lasts nothing. *)
Definition concat_duration (ds : list Q) (padding : Q) : Q :=
  match ds with
  | [] => 0%Q
  | _ :: _ => (Qsum ds + padding * inject_Z (Z.of_nat (length ds) - 1))%Q
  end.

Fixpoint vduration (v : vclip) : Q :=
  match v with
  | Single c => clip_duration c
  | Concat parts padding => concat_duration (map vduration parts) padding
  end.

(** In "compose" mode the result is as wide and as high as its largest
    part. *)
Fixpoint vwidth (v : vclip) : Z :=
  match v with
  | Single c => frame_w (clip_frame c)
  | Concat parts _ => foldr Z.max 0 (map vwidth parts)
  end.

Fixpoint vheight (v : vclip) : Z :=
  match v with
  | Single c => frame_h (clip_frame c)
  | Concat parts _ => foldr Z.max 0 (map vheight parts)
  end.

(** [concatenate_videoclips(parts, method="compose", padding=padding)] *)
Definition concatenate_videoclips (parts : list vclip) (padding : Q) : vclip :=
  Concat parts padding.

(** *** The process and its surroundings *)

(** A call made on MoviePy, as logged by the model. *)
Inductive call : Type :=
| Call_ImageClip (path : string)
| Call_VideoFileClip (path : string)
| Call_AudioFileClip (path : string)
| Call_save_frame (fr : frame) (path : string)
| Call_write_videofile (m : movie) (path : string).

(** How a write of the backend ends: the file is complete, or the call
    raises, leaving nothing or something at the destination. *)
Inductive write_outcome : Type :=
| Written
| Write_raises (msg : string) (left_behind : option content).

(** What the job cannot see into: the digest function, the temporary
    directory of the system, the stream of the random generator, the
    message of a decoder that rejects a file, and whether a write of the
    backend to a given path succeeds. *)
Record Env : Type := mkEnv {
  md5_hexdigest : string -> string;
  gettempdir : string;
  random_draw : nat -> nat;
  decode_error : string -> string;
  save_frame_outcome : string -> write_outcome;
  write_videofile_outcome : string -> write_outcome
}.

Record world : Type := mkWorld {
  fs : gmap string node;      (* absolute path -> node *)
  cwd : string;               (* working directory of the process *)
  rng : nat;                  (* draws consumed so far *)
  stdout : list string;       (* lines printed *)
  calls : list call           (* calls made on MoviePy, oldest first *)
}.

Definition set_fs (f : gmap string node -> gmap string node) (w : world) : world :=
  {| fs := f (fs w); cwd := cwd w; rng := rng w; stdout := stdout w; calls := calls w |}.

Definition log_call (c : call) (w : world) : world :=
  {| fs := fs w; cwd := cwd w; rng := rng w; stdout := stdout w; calls := calls w ++ [c] |}.

Definition log_line (line : string) (w : world) : world :=
  {| fs := fs w; cwd := cwd w; rng := rng w; stdout := stdout w ++ [line]; calls := calls w |}.

Definition set_rng (r : nat) (w : world) : world :=
  {| fs := fs w; cwd := cwd w; rng := r; stdout := stdout w; calls := calls w |}.

(** *** The monad of the job: state, and exceptions carrying [str(e)] *)

Inductive result (A : Type) : Type :=
| Ok (a : A)
| Raise (e : string).
Arguments Ok {A} a.
Arguments Raise {A} e.

Definition M (A : Type) : Type := world -> result A * world.

Definition ret {A} (a : A) : M A := fun w => (Ok a, w).
Definition raise {A} (e : string) : M A := fun w => (Raise e, w).
Definition bind {A B} (m : M A) (k : A -> M B) : M B :=
  fun w => match m w with
           | (Ok a, w') => k a w'
           | (Raise e, w') => (Raise e, w')
           end.

Declare Scope job_scope.
Delimit Scope job_scope with job.
Notation "x <- m ;; k" := (bind m (fun x => k))
  (at level 100, m at next level, right associativity) : job_scope.
Notation "m ;;; k" := (bind m (fun _ => k))
  (at level 100, right associativity) : job_scope.
Local Open Scope job_scope.

Definition get_world : M world := fun w => (Ok w, w).
Definition modify (f : world -> world) : M unit := fun w => (Ok tt, f w).

(** [print(line)] *)
Definition print (line : string) : M unit := modify (log_line line).

(** *** [os.path] tests *)

Definition resolve (w : world) (p : string) : string :=
  if Path.isabs p then p else Path.join (cwd w) p.

Definition isfile (w : world) (p : string) : bool :=
  match fs w !! resolve w p with
  | Some (File _) => true
  | _ => false
  end.

Definition path_exists (w : world) (p : string) : bool :=
  bool_decide (is_Some (fs w !! resolve w p)).

(** [os.path.isfile(p)] *)
Definition os_path_isfile (p : string) : M bool := fun w => (Ok (isfile w p), w).
(** [os.path.exists(p)] *)
Definition os_path_exists (p : string) : M bool := fun w => (Ok (path_exists w p), w).

Section Job.

Context (env : Env).

(** *** MoviePy calls that touch the file system *)

(** [ImageClip(path)]: decodes a picture, raises on anything else. *)
Definition ImageClip (path : string) : M frame :=
  modify (log_call (Call_ImageClip path)) ;;;
  w <- get_world ;;
  match fs w !! resolve w path with
  | Some (File (Image iw ih)) =>
      ret {| frame_origin := ImageFile path; frame_fx := []; frame_w := iw; frame_h := ih |}
  | _ => raise (decode_error env path)
  end.

(** [VideoFileClip(path)]: decodes a film, raises on anything else. *)
Definition VideoFileClip (path : string) : M clip :=
  modify (log_call (Call_VideoFileClip path)) ;;;
  w <- get_world ;;
  match fs w !! resolve w path with
  | Some (File (Video vw vh d)) =>
      ret {| clip_frame := {| frame_origin := VideoFile path; frame_fx := [];
                              frame_w := vw; frame_h := vh |};
             clip_duration := d |}
  | _ => raise (decode_error env path)
  end.

(** [AudioFileClip(path)]: decodes a sound, raises on anything else. *)
Definition AudioFileClip (path : string) : M aclip :=
  modify (log_call (Call_AudioFileClip path)) ;;;
  w <- get_world ;;
  match fs w !! resolve w path with
  | Some (File (Audio d)) =>
      ret {| aclip_path := path; aclip_fx := []; aclip_duration := d |}
  | _ => raise (decode_error env path)
  end.

(** A write of the backend to [path]: on success the destination holds
    [c]; when the call raises, the destination holds what the backend left
    there, if anything. *)
Definition backend_write (o : write_outcome) (c : content) (path : string) : M unit :=
  w <- get_world ;;
  match o with
  | Written => modify (set_fs (insert (resolve w path) (File c)))
  | Write_raises msg left_behind =>
      match left_behind with
      | Some part => modify (set_fs (insert (resolve w path) (File part)))
      | None => ret tt
      end ;;;
      raise msg
  end.

(** [fr.save_frame(path, t=0)] *)
Definition save_frame (fr : frame) (path : string) : M unit :=
  modify (log_call (Call_save_frame fr path)) ;;;
  backend_write (save_frame_outcome env path) (Image (frame_w fr) (frame_h fr)) path.

(** [m.write_videofile(path, fps=30, codec="libx264", audio_codec="aac",
    preset="ultrafast", verbose=False, logger=None)] *)
Definition write_videofile (m : movie) (path : string) : M unit :=
  modify (log_call (Call_write_videofile m path)) ;;;
  backend_write (write_videofile_outcome env path)
    (Video (vwidth (movie_video m)) (vheight (movie_video m)) (vduration (movie_video m)))
    path.

(** *** The [random] module *)

(** One draw below [n] (for [n > 0]); the generator advances. *)
Definition randbelow (n : nat) : M nat :=
  fun w => (Ok (random_draw env (rng w) `mod` n)%nat, set_rng (S (rng w)) w).

(** [random.choices(population, k=k)]: [k] independent draws of a
    position; an empty population has no position 0 to return. *)
Fixpoint choices_go (population : list string) (k : nat) : M (list string) :=
  match k with
  | O => ret []
  | S k' =>
      j <- randbelow (length population) ;;
      match population !! j with
      | None => raise "list index out of range"
      | Some x => rest <- choices_go population k' ;; ret (x :: rest)
      end
  end.

Definition random_choices (population : list string) (k : Z) : M (list string) :=
  choices_go population (Z.to_nat k).

(** The loop of [random.sample] over its pool: at step [i] the first
    [m = n - i] cells of the pool hold the entries not yet drawn; the cell
    drawn is refilled with the last of them. (On a large population CPython
    keeps the set of positions taken and draws again on a position it has
    seen; the selection is made of distinct positions there as well.) *)
Fixpoint sample_go (pool : list string) (m k : nat) : M (list string) :=
  match k with
  | O => ret []
  | S k' =>
      j <- randbelow m ;;
      let picked := pool !!! j in
      rest <- sample_go (<[j := pool !!! (m - 1)%nat]> pool) (m - 1) k' ;;
      ret (picked :: rest)
  end.

(** [random.sample(population, k)] *)
Definition random_sample (population : list string) (k : Z) : M (list string) :=
  if negb ((0 <=? k) && (k <=? Z.of_nat (length population)))
  then raise "Sample larger than population or is negative"
  else sample_go population (length population) (Z.to_nat k).

(** *** The frame cache (lines 106-119 of [run], and again 129-142) *)

(** [DISK_CACHE_DIR]; the module creates the directory when it is loaded. *)
Definition DISK_CACHE_DIR : string :=
  Path.join (gettempdir env) "video_export_cache".

(** The destination of the cached frame of a source at a geometry. *)
Definition cache_file_of (file_path : string) (width height : Z) : string :=
  let cache_key := file_path +:+ "_" +:+ pretty width +:+ "_" +:+ pretty height in
  let hash_key := md5_hexdigest env cache_key in
  Path.join DISK_CACHE_DIR (hash_key +:+ ".png").

(** The resize and crop-or-pad policy of the image branch. *)
Definition fit_image (width height : Z) (clip_proc : frame) : frame :=
  let clip_proc := resize_height height clip_proc in
  if width <? frame_w clip_proc then
    crop (inject_Z (frame_w clip_proc) / 2) width clip_proc
  else if frame_w clip_proc <? width then
    on_color width height clip_proc
  else clip_proc.

(** The miss branch: load, fit, write the frame to the cache file. *)
Definition produce (file_path : string) (width height : Z) (cache_file : string) : M unit :=
  clip_proc <- ImageClip file_path ;;
  save_frame (fit_image width height clip_proc) cache_file.

(** The block under [with DISK_CACHE_LOCK]: the lock makes the test and
    the creation one step with respect to the other jobs, which is how
    the sequential model runs it. The value is [processed_file]. *)
Definition get_or_create (file_path : string) (width height : Z) : M string :=
  let cache_file := cache_file_of file_path width height in
  hit <- os_path_exists cache_file ;;
  if hit then ret cache_file
  else produce file_path width height cache_file ;;; ret cache_file.

(** *** Normalising the selected files (lines 86-121) *)

Definition video_suffixes : list string := [".mp4"; ".mov"; ".avi"].

(** The resize and crop-or-pad policy of the video branch. *)
Definition fit_video (width height : Z) (loaded : clip) : clip :=
  let clip := on_frame (resize_newsize width height) loaded in
  if width <? frame_w (clip_frame clip) then
    on_frame (crop (inject_Z (frame_w (clip_frame clip)) / 2) width) clip
  else if frame_w (clip_frame clip) <? width then
    on_frame (on_color width height) clip
  else clip.

(** [file_path] made absolute against [base_dir] when it is relative. *)
Definition against (base_dir file_path : string) : string :=
  if negb (Path.isabs file_path) then Path.join base_dir file_path else file_path.

(** One turn of the loop over [sample_files]; [clips] is the list built so
    far and the value is the list after the turn. *)
Definition process_file (base_dir : string) (width height : Z) (per_image_time : Q)
    (clips : list clip) (file_path : string) : M (list clip) :=
  let file_path := against base_dir file_path in
  present <- os_path_isfile file_path ;;
  if negb present then
    print ("File not found: " +:+ file_path) ;;; ret clips
  else
    let lower_path := Str.lower file_path in
    if Str.endswith_any video_suffixes lower_path then
      clip <- VideoFileClip file_path ;;
      ret (clips ++ [fit_video width height clip])
    else
      processed_file <- get_or_create file_path width height ;;
      fr <- ImageClip processed_file ;;
      ret (clips ++ [set_duration per_image_time fr]).

Fixpoint process_files (base_dir : string) (width height : Z) (per_image_time : Q)
    (clips : list clip) (sample_files : list string) : M (list clip) :=
  match sample_files with
  | [] => ret clips
  | file_path :: rest =>
      clips' <- process_file base_dir width height per_image_time clips file_path ;;
      process_files base_dir width height per_image_time clips' rest
  end.

(** *** The closing image (lines 123-143) *)

Definition process_closing (base_dir : string) (width height : Z)
    (closing_image : option string) : M (option clip) :=
  match closing_image with
  | None => ret None
  | Some closing_image =>
      if Str.truthy closing_image && negb (String.eqb (Str.strip closing_image) EmptyString) then
        let closing_image := against base_dir closing_image in
        present <- os_path_isfile closing_image ;;
        if present then
          processed_close <- get_or_create closing_image width height ;;
          fr <- ImageClip processed_close ;;
          ret (Some (set_duration 3 fr))
        else ret None
      else ret None
  end.

End Job.

(** ** Assembling the timeline *)

(** [crossfade_consecutive_clips(clips, fade_duration)]: [None] on an empty
    list, the clip itself on a list of one, otherwise the first clip
    followed by the others faded in, concatenated in "compose" mode with
    the padding [-fade_duration]. *)
Definition crossfade_consecutive_clips (clips : list clip) (fade_duration : Q) : option vclip :=
  match clips with
  | [] => None
  | [only] => Some (Single only)
  | first :: rest =>
      let new_clips := Single first :: map (fun c => Single (crossfadein fade_duration c)) rest in
      Some (concatenate_videoclips new_clips (- fade_duration))
  end.

(** "Build the final clip" (lines 148-158). With no clip at all
    [crossfade_consecutive_clips] gives [None], on which the next attribute
    access raises; [run] has left before that point. *)
Definition build_final_clip (use_crossfade : bool) (fade_duration : Q)
    (clips : list clip) (closing_clip : option clip) : M vclip :=
  if use_crossfade then
    match crossfade_consecutive_clips clips fade_duration with
    | None => raise "'NoneType' object has no attribute 'duration'"
    | Some main_clip =>
        match closing_clip with
        | Some closing => ret (concatenate_videoclips [main_clip; Single closing] 0)
        | None => ret main_clip
        end
    end
  else
    let clips := match closing_clip with
                 | Some closing => clips ++ [closing]
                 | None => clips
                 end in
    ret (concatenate_videoclips (map Single clips) 0).

(** ** Fitting the audio *)

(** [x < y] on durations. *)
Definition Qlt_bool (x y : Q) : bool := negb (Qle_bool y x).

(** Python's [int(x)] on a float: truncation towards zero. *)
Definition int_of_Q (x : Q) : Z := Z.quot (Qnum x) (Z.pos (Qden x)).

(** [audio_loop(a, duration=duration)]: [int(duration / a.duration) + 1]
    copies of the clip one after the other, then [set_duration(duration)].
    The division raises on a clip of duration zero. *)
Definition audio_loop (a : aclip) (duration : Q) : M aclip :=
  if Qeq_bool (aclip_duration a) 0 then raise "float division by zero"
  else
    let nloops := int_of_Q (duration / aclip_duration a) + 1 in
    ret {| aclip_path := aclip_path a;
           aclip_fx := aclip_fx a ++ [Audio_loop nloops duration];
           aclip_duration := duration |}.

(** [a.subclip(t_start, t_end)] for [0 <= t_start] and [0 <= t_end]: the
    part of the clip between the two instants. *)
Definition subclip (t_start t_end : Q) (a : aclip) : aclip :=
  {| aclip_path := aclip_path a;
     aclip_fx := aclip_fx a ++ [Subclip t_start t_end];
     aclip_duration := (t_end - t_start)%Q |}.

(** ** The job *)

(** The [export_params] dictionary that [start_export] builds. *)
Record export_params : Type := mkParams {
  images_per_video : Z;
  output_videos : Z;
  width : Z;
  height : Z;
  per_image_time : Q;
  fade_duration : Q;
  audio_file : option string;
  output_folder : string;
  crossfade : bool;
  closing_image : option string
}.

(** The three signals of [WorkerSignals]. *)
Inductive signal : Type :=
| Progress (video_idx : Z)
| Error (message : string)
| Finished.

Section Run.

Context (env : Env) (base_dir : string) (files_list : list string)
        (params : export_params).

(** "Randomly select files (allow repeats if needed)" (lines 80-83). *)
Definition select_files : M (list string) :=
  if Z.of_nat (length files_list) <? images_per_video params
  then random_choices env files_list (images_per_video params)
  else random_sample env files_list (images_per_video params).

(** "Attach audio if available" (lines 161-167). *)
Definition attach_audio (final_clip : vclip) : M movie :=
  match audio_file params with
  | None => ret {| movie_video := final_clip; movie_audio := None |}
  | Some audio_file =>
      present <- (if Str.truthy audio_file then os_path_isfile audio_file else ret false) ;;
      if present then
        audio_clip <- AudioFileClip env audio_file ;;
        audio_clip <-
          (if Qlt_bool (aclip_duration audio_clip) (vduration final_clip)
           then audio_loop audio_clip (vduration final_clip)
           else ret (subclip 0 (vduration final_clip) audio_clip)) ;;
        ret {| movie_video := final_clip; movie_audio := Some audio_clip |}
      else ret {| movie_video := final_clip; movie_audio := None |}
  end.

(** The body of the [try] block of [run]. *)
Definition run_body (video_idx : Z) : M unit :=
  sample_files <- select_files ;;
  clips <- process_files env base_dir (width params) (height params)
             (per_image_time params) [] sample_files ;;
  closing_clip <- process_closing env base_dir (width params) (height params)
                    (closing_image params) ;;
  match clips with
  | [] => raise "No valid files to process for video creation."
  | _ :: _ =>
      final_clip <- build_final_clip (crossfade params) (fade_duration params)
                      clips closing_clip ;;
      final_clip <- attach_audio final_clip ;;
      let output_path :=
        Path.join (output_folder params) ("video_" +:+ pretty video_idx +:+ ".mp4") in
      write_videofile env final_clip output_path
  end.

(** The message of the [error] signal. *)
Definition error_message (video_idx : Z) (e : string) : string :=
  "Error in video " +:+ pretty video_idx +:+ ": " +:+ e.

(** [VideoExportTask.run]: the signals emitted, in order, and the world
    the job leaves. *)
Definition run (video_idx : Z) (w : world) : list signal * world :=
  match run_body video_idx w with
  | (Ok _, w') => ([Progress video_idx; Finished], w')
  | (Raise e, w') => ([Error (error_message video_idx e); Finished], w')
  end.

(** "Launch a task for each video" in [start_export]: one job for each
    index from [video_idx] on, here run one after the other. *)
Fixpoint launch (video_idx : Z) (count : nat) (w : world) : list signal * world :=
  match count with
  | O => ([], w)
  | S count' =>
      let '(emitted, w1) := run video_idx w in
      let '(later, w2) := launch (video_idx + 1) count' w1 in
      (emitted ++ later, w2)
  end.

Definition start_export (w : world) : list signal * world :=
  launch 1 (Z.to_nat (output_videos params)) w.

End Run.

(** ** Vocabulary of the statements *)


(** The frame that the miss branch hands to [save_frame] for a source
    picture of size [iw] x [ih]. *)
Definition produced_frame (file_path : string) (width height iw ih : Z) : frame :=
  fit_image width height
    {| frame_origin := ImageFile file_path; frame_fx := []; frame_w := iw; frame_h := ih |}.

(** How many times [save_frame] was called on a destination. *)
Definition is_save_frame_to (path : string) (c : call) : bool :=
  match c with
  | Call_save_frame _ p => bool_decide (p = path)
  | _ => false
  end.

Definition productions (path : string) (cs : list call) : nat :=
  length (List.filter (is_save_frame_to path) cs).

(** A world in which the files of [w] are still there. *)
Definition keeps_files (w w2 : world) : Prop :=
  cwd w2 = cwd w /\ dom (fs w) ⊆ dom (fs w2).

(** The outcome signal of the job for video [video_idx]: success with the
    index, or failure with a message that names the index and quotes the
    exception. *)
Definition outcome_of (video_idx : Z) (s : signal) : Prop :=
  s = Progress video_idx \/ exists e, s = Error (error_message video_idx e).

Definition is_video_call (c : call) : bool :=
  match c with Call_VideoFileClip _ => true | _ => false end.

Definition is_image_call (c : call) : bool :=
  match c with Call_ImageClip _ => true | _ => false end.

(** The calls logged between world [w] and a later world [w']. *)
Definition new_calls (w w' : world) : list call := drop (length (calls w)) (calls w').

(** The test of line 125 and of line 128 on the closing image: it is
    set, not blank, and names an existing file once made absolute. *)
Definition closing_considered (base_dir : string) (closing_image : option string)
    (w : world) : bool :=
  match closing_image with
  | Some ci =>
      Str.truthy ci && negb (String.eqb (Str.strip ci) EmptyString) && isfile w (against base_dir ci)
  | None => false
  end.

(** A step of the job that keeps the working directory and the files. *)
Definition steady {A : Type} (m : M A) : Prop := forall w, keeps_files w (m w).2.

(** The cache and the log agree: no destination was written more than once,
    and a destination that was written is there. *)
Definition cache_sound (w : world) : Prop :=
  forall p, (productions p (calls w) <= 1)%nat
            /\ (productions p (calls w) = 1%nat -> resolve w p ∈ dom (fs w)).

(** A step of the job that keeps the cache and the log in agreement. *)
Definition orderly {A : Type} (m : M A) : Prop :=
  forall w, cache_sound w -> cache_sound (m w).2.

(** A backend whose [save_frame], when it raises, has at least created the
    file. *)
Definition save_leaves_a_file (env : Env) : Prop :=
  forall p msg, save_frame_outcome env p ≠ Write_raises msg None.

(** ** A scenario to evaluate the job on

    An environment in which every write succeeds, and a small process:
    sources under [/app], a working directory elsewhere. The digest is a
    stand-in for MD5: a checksum printed in decimal. *)
Module Scenario.

Fixpoint checksum (s : string) (acc : N) : N :=
  match s with
  | EmptyString => acc
  | String a s' => checksum s' ((acc * 257 + Ascii.N_of_ascii a) `mod` 1000000007)%N
  end.

Definition env : Env := {|
  md5_hexdigest := fun s => pretty (checksum s 7);
  gettempdir := "/tmp";
  random_draw := fun n => (3 * n + 1)%nat;
  decode_error := fun p => "cannot decode " +:+ p;
  save_frame_outcome := fun _ => Written;
  write_videofile_outcome := fun _ => Written
|}.

(** The same, on a disk that fills up while a frame is being written. *)
Definition env_disk_full : Env := {|
  md5_hexdigest := md5_hexdigest env;
  gettempdir := gettempdir env;
  random_draw := random_draw env;
  decode_error := decode_error env;
  save_frame_outcome := fun _ => Write_raises "No space left on device" (Some Junk);
  write_videofile_outcome := write_videofile_outcome env
|}.

Definition files : gmap string node :=
  {[ "/tmp/video_export_cache" := Dir;
     "/out" := Dir;
     "/app/wide.png" := File (Image 400 100);
     "/app/tall.png" := File (Image 100 100);
     "/app/film.MP4" := File (Video 400 100 2);
     "/app/end.mp4" := File (Image 200 100);
     "/app/song.mp3" := File (Audio 4) ]}.

Definition start : world :=
  {| fs := files; cwd := "/home/user"; rng := 0; stdout := []; calls := [] |}.

Definition params : export_params := {|
  images_per_video := 3;
  output_videos := 4;
  width := 200;
  height := 100;
  per_image_time := 2;
  fade_duration := 1 # 2;
  audio_file := Some "/app/song.mp3";
  output_folder := "/out";
  crossfade := true;
  closing_image := None
|}.

(** The encoder fails on [video_2.mp4]. *)
Definition env_encoder_fails : Env := {|
  md5_hexdigest := md5_hexdigest env;
  gettempdir := gettempdir env;
  random_draw := random_draw env;
  decode_error := decode_error env;
  save_frame_outcome := save_frame_outcome env;
  write_videofile_outcome := fun path =>
    if String.eqb path "/out/video_2.mp4"
    then Write_raises "encoder exited with status 1" None
    else Written
|}.

Definition still (path : string) : frame :=
  {| frame_origin := ImageFile path; frame_fx := []; frame_w := 200; frame_h := 100 |}.

Definition film : clip :=
  {| clip_frame := {| frame_origin := VideoFile "/app/film.MP4"; frame_fx := [];
                      frame_w := 400; frame_h := 100 |};
     clip_duration := 2 |}.

End Scenario.

(** ** The window: presets, table of files, launch

    [CSVAudioTool] is modelled through the values its methods read from the
    widgets and through what they hand on: the texts passed to [show_error]
    and the arguments of the jobs. The widgets themselves are Qt's. *)

Module Py.

(** [s.split(sep)] for a separator of one character. *)
Fixpoint split (sep : ascii) (s : string) : list string :=
  match s with
  | EmptyString => [EmptyString]
  | String a s' =>
      if bool_decide (a = sep) then EmptyString :: split sep s'
      else match split sep s' with
           | piece :: pieces => String a piece :: pieces
           | [] => [String a EmptyString]
           end
  end.

Definition digit (a : ascii) : option Z :=
  let n := Ascii.N_of_ascii a in
  if ((48 <=? n) && (n <=? 57))%N then Some (Z.of_N n - 48) else None.

(** The digits of a decimal literal, most significant first; one underscore
    may stand between two digits. [after_digit] tells whether the character
    just read was a digit. *)
Fixpoint digits (acc : Z) (after_digit : bool) (s : string) : option Z :=
  match s with
  | EmptyString => if after_digit then Some acc else None
  | String a s' =>
      match digit a with
      | Some d => digits (10 * acc + d) true s'
      | None =>
          if bool_decide (a = "_"%char) && after_digit then digits acc false s' else None
      end
  end.

(** [int(s)] on a [str] of the ASCII range: blanks around, an optional
    sign, decimal digits. [None] stands for [ValueError]. *)
Definition int (s : string) : option Z :=
  match Str.strip s with
  | String "+"%char body => digits 0 false body
  | String "-"%char body => Z.opp <$> digits 0 false body
  | body => digits 0 false body
  end.

End Py.

(** An entry of [output_ratio_map]. *)
Record preset : Type := mkPreset {
  ratio : string;
  resolution : string
}.

(** [self.output_ratio_map], in the order of the literal. *)
Definition output_ratio_map : list (string * preset) :=
  [ ("Instagram Feed", mkPreset "1:1" "1080x1080");
    ("Instagram Story", mkPreset "9:16" "1080x1920");
    ("Instagram Reel", mkPreset "9:16" "1080x1920");
    ("YouTube Video", mkPreset "16:9" "1920x1080");
    ("YouTube Shorts", mkPreset "9:16" "1080x1920");
    ("Facebook Feed", mkPreset "1.91:1" "1200x628");
    ("Facebook Story", mkPreset "9:16" "1080x1920");
    ("Facebook Reels", mkPreset "9:16" "1080x1920");
    ("TikTok", mkPreset "9:16" "1080x1920");
    ("Portrait", mkPreset "9:16" "1080x1920");
    ("Landscape", mkPreset "16:9" "1920x1080");
    ("Cover", mkPreset "1:2.39" "800x320") ].

(** [d.get(key)] on a dictionary given by its items. *)
Fixpoint dict_get {V : Type} (key : string) (items : list (string * V)) : option V :=
  match items with
  | [] => None
  | (k, v) :: rest => if String.eqb k key then Some v else dict_get key rest
  end.

(** Lines 325-331 of [start_export]: the resolution of the chosen ratio,
    [1920x1080] for a name the map does not have, and again 1920 and 1080
    when the text does not split into two integers. *)
Definition resolution_of (output_ratio : string) : Z * Z :=
  let res_str :=
    match dict_get output_ratio output_ratio_map with
    | Some ratio_details => resolution ratio_details
    | None => "1920x1080"
    end in
  match Py.int <$> Py.split "x"%char res_str with
  | [Some width; Some height] => (width, height)
  | _ => (1920, 1080)
  end.

(** A table as [pd.read_csv] returns it: the names of the columns and the
    rows of cells, [None] for a missing value (NaN). Cells are texts. *)
Record DataFrame : Type := mkDataFrame {
  columns : list string;
  rows : list (list (option string))
}.

Fixpoint index_of (name : string) (names : list string) : option nat :=
  match names with
  | [] => None
  | n :: rest => if String.eqb n name then Some O else S <$> index_of name rest
  end.

(** [df[name]] as the list of its cells, for a column the table has. *)
Definition column (name : string) (df : DataFrame) : list (option string) :=
  match index_of name (columns df) with
  | Some i => (fun r => mjoin (r !! i)) <$> rows df
  | None => []
  end.




(** [df.empty] *)
Definition df_empty (df : DataFrame) : bool :=
  match columns df, rows df with
  | _ :: _, _ :: _ => false
  | _, _ => true
  end.

(** [df[df["Category"] == category]["File"].dropna().tolist()] *)
Definition files_of_category (category : string) (df : DataFrame) : list string :=
  omap (fun '(c, f) => if bool_decide (c = Some category) then f else None)
       (zip (column "Category" df) (column "File" df)).





(** The values [start_export] reads from the widgets. *)
Record readings : Type := mkReadings {
  output_folder_text : string;
  output_ratio_text : string;
  category_text : string;
  image_spinbox_value : Z;
  output_videos_spinbox_value : Z;
  time_slider_value : Z;
  audio_label_text : string;
  closing_image_label_text : string
}.

(** The ranges that [setupUI] gives to the two spin boxes and the slider. *)
Definition within_ranges (r : readings) : Prop :=
  1 <= image_spinbox_value r <= 100
  /\ 1 <= output_videos_spinbox_value r <= 100
  /\ 1 <= time_slider_value r <= 10.

(** [os.path.isdir(p)] *)
Definition isdir (w : world) (p : string) : bool :=
  match fs w !! resolve w p with
  | Some Dir => true
  | _ => false
  end.

(** The dictionary that [start_export] builds (lines 340-351). *)
Definition export_params_of (r : readings) : export_params :=
  let '(width, height) := resolution_of (output_ratio_text r) in
  {| images_per_video := image_spinbox_value r;
     output_videos := output_videos_spinbox_value r;
     width := width;
     height := height;
     per_image_time := inject_Z (time_slider_value r);
     fade_duration := 1;
     audio_file := if String.eqb (audio_label_text r) "No audio selected"
                   then None else Some (audio_label_text r);
     output_folder := output_folder_text r;
     crossfade := true;
     closing_image := if String.eqb (closing_image_label_text r) "No closing image selected"
                      then None else Some (closing_image_label_text r) |}.

(** The part of [start_export] before the jobs are launched (lines
    316-351): the text given to [show_error] when it returns early,
    otherwise the list of files and the parameters of the jobs. *)
Definition export_plan (self_df : option DataFrame) (r : readings) (w : world)
    : string + (list string * export_params) :=
  match self_df with
  | None => inl "Please load a valid CSV first."
  | Some df =>
      if df_empty df then inl "Please load a valid CSV first."
      else if negb (Str.truthy (output_folder_text r) && isdir w (output_folder_text r))
      then inl "Please select a valid output folder."
      else
        let files_list := files_of_category (category_text r) df in
        match files_list with
        | [] => inl "No files found for the selected category."
        | _ :: _ => inr (files_list, export_params_of r)
        end
  end.


(** [on_task_finished]: the counter after the call, and whether the call
    took the branch that closes the dialog and announces the end. *)
Definition on_task_finished (total_tasks tasks_finished : Z) : Z * bool :=
  let tasks_finished := tasks_finished + 1 in
  (tasks_finished, total_tasks <=? tasks_finished).

(** The slots connected to a job, fed with its signals in the order they
    arrive: the counter, and how many times the end was announced. *)
Fixpoint deliver (total_tasks : Z) (signals : list signal) (tasks_finished : Z) (announced : nat)
    : Z * nat :=
  match signals with
  | [] => (tasks_finished, announced)
  | Finished :: rest =>
      let '(tasks_finished, done) := on_task_finished total_tasks tasks_finished in
      deliver total_tasks rest tasks_finished (if done then S announced else announced)
  | _ :: rest => deliver total_tasks rest tasks_finished announced
  end.

(** ** More vocabulary *)

(** The text that is hashed into the name of a cache file (line 106). *)
Definition cache_key_of (file_path : string) (width height : Z) : string :=
  file_path +:+ "_" +:+ pretty width +:+ "_" +:+ pretty height.

(** The path of the output of a job (line 169). *)
Definition output_path_of (output_folder : string) (video_idx : Z) : string :=
  Path.join output_folder ("video_" +:+ pretty video_idx +:+ ".mp4").

(** A step whose every run relates the world before to the world after. *)
Definition respects {A : Type} (R : world -> world -> Prop) (m : M A) : Prop :=
  forall w, R w (m w).2.

Definition same_stdout (w w' : world) : Prop := stdout w' = stdout w.
Definition same_files (w w' : world) : Prop := fs w' = fs w /\ cwd w' = cwd w.

Fixpoint has_char (c : ascii) (s : string) : bool :=
  match s with
  | EmptyString => false
  | String a s' => bool_decide (a = c) || has_char c s'
  end.

(** The world after is the world before, except maybe at the paths [out]
    (which may depend on the working directory only) and at paths that
    held nothing. *)
Definition untouched_except (out : world -> string -> Prop) (w w' : world) : Prop :=
  cwd w' = cwd w
  /\ forall p n, fs w !! p = Some n -> ~ out w p -> fs w' !! p = Some n.


(** A step that can raise only exceptions whose text satisfies [E]. *)
Definition raises_only {A : Type} (E : string -> Prop) (m : M A) : Prop :=
  forall w e w', m w = (Raise e, w') -> E e.

(** The texts with which a job can fail. *)
Definition job_failure (env : Env) (output_path : string) (e : string) : Prop :=
  e = "Sample larger than population or is negative"
  \/ e = "list index out of range"
  \/ (exists p, e = decode_error env p)
  \/ (exists p left_behind, save_frame_outcome env p = Write_raises e left_behind)
  \/ e = "No valid files to process for video creation."
  \/ e = "float division by zero"
  \/ (exists left_behind, write_videofile_outcome env output_path = Write_raises e left_behind).

(** How many [finished] signals a list holds. *)
Definition finished_count (signals : list signal) : nat :=
  length (List.filter (fun s => match s with Finished => true | _ => false end) signals).

(** A table and a state of the widgets to try the window on. *)
Module Desk.

Definition table : DataFrame :=
  {| columns := ["Category"; "File"; "Note"];
     rows := [ [Some "beach"; Some "wide.png"; None];
               [Some "city"; Some "tall.png"; Some "night"];
               [None; Some "stray.png"; None];
               [Some "beach"; None; None];
               [Some "beach"; Some "film.MP4"; None];
               [Some "empty"; None; None] ] |}.

Definition picked : readings :=
  {| output_folder_text := "/out";
     output_ratio_text := "Cover";
     category_text := "beach";
     image_spinbox_value := 3;
     output_videos_spinbox_value := 4;
     time_slider_value := 2;
     audio_label_text := "No audio selected";
     closing_image_label_text := "/app/end.mp4" |}.

End Desk.

(** * Properties *)

(** ** Normalising a video source (C1) *)

(** After [resize(newsize=(width, height))] the clip is exactly as wide as
    the canvas, so neither the crop nor the padding of the video branch is
    ever taken: whatever the source, the branch applies this one effect. *)
Lemma fit_video_is_resize_newsize (width height : Z) (c : clip) :
  fit_video width height c = on_frame (resize_newsize width height) c.
Proof.
  unfold fit_video. cbn [on_frame resize_newsize apply_fx clip_frame frame_w].
  rewrite Z.ltb_irrefl. reflexivity.
Qed.

(** C1 (the code departs from it). A 400x100 film normalised for a 200x100
    canvas: the claim asks for a resize to height 100 that keeps the aspect
    (400 wide) followed by a centred crop to 200, which is what the image
    branch [fit_image] does on the same picture; the video branch squeezes
    the film to 200x100 with a single [resize(newsize=...)] and crops
    nothing. *)
Theorem C1_video_is_stretched_not_cropped :
  frame_fx (clip_frame (fit_video 200 100 Scenario.film)) = [Resize_newsize 200 100]
  /\ frame_fx (fit_image 200 100 (clip_frame Scenario.film))
     = [Resize_height 100; Crop (400 # 2) 200]
  /\ (process_file Scenario.env "/app" 200 100 2 [] "film.MP4" Scenario.start).1
     = Ok [on_frame (resize_newsize 200 100) Scenario.film].
Proof. repeat split; vm_compute; reflexivity. Qed.

(** ** Crossfade assembly (C6) *)

Lemma Qsum_cons (d : Q) (ds : list Q) : Qsum (d :: ds) = (d + Qsum ds)%Q.
Proof. reflexivity. Qed.





(** ** Selecting the files (C5) *)

Section Selection.

Context (env : Env).

Lemma set_rng_set_rng (a b : nat) (w : world) : set_rng a (set_rng b w) = set_rng a w.
Proof. reflexivity. Qed.

Lemma set_rng_same (w : world) : set_rng (rng w) w = w.
Proof. by destruct w. Qed.

(** [random.choices]: entry [i] of the selection is the entry of the
    population at the position of draw [i]; the population is not reduced
    between the draws. *)
Lemma choices_go_spec (population : list string) (k : nat) (w : world) :
  population ≠ [] ->
  choices_go env population k w =
    (Ok (map (fun i => population !!! (random_draw env (rng w + i) `mod` length population)%nat)
             (seq 0 k)),
     set_rng (rng w + k) w).
Proof.
  intros Hne. revert w. induction k as [|k IH]; intros w.
  - simpl. unfold ret. by rewrite Nat.add_0_r, set_rng_same.
  - cbn [choices_go]. unfold bind at 1. unfold randbelow at 1.
    assert (Hlt : (random_draw env (rng w) `mod` length population < length population)%nat).
    { apply Nat.mod_upper_bound. destruct population; simpl; [done | lia]. }
    destruct (lookup_lt_is_Some_2 population _ Hlt) as [x Hx].
    rewrite Hx. unfold bind. rewrite IH. unfold ret.
    cbn [seq map]. rewrite Nat.add_0_r.
    rewrite (list_lookup_total_correct _ _ _ Hx).
    rewrite <- seq_shift, map_map. simpl rng.
    rewrite set_rng_set_rng.
    replace (rng w + S k)%nat with (S (rng w) + k)%nat by lia.
    do 3 f_equal. apply map_ext. intros i. by rewrite Nat.add_succ_r.
Qed.

(** One step of the pool of [random.sample]: the entry drawn together with
    the shortened pool is a rearrangement of the pool before the step. *)
Lemma pool_step_perm (pool : list string) (m j : nat) :
  (j < m)%nat -> (m <= length pool)%nat ->
  pool !!! j :: take (m - 1) (<[j := pool !!! (m - 1)%nat]> pool) ≡ₚ take m pool.
Proof.
  intros Hj Hm.
  destruct m as [|m]; [lia|]. replace (S m - 1)%nat with m by lia.
  destruct (lookup_lt_is_Some_2 pool m ltac:(lia)) as [last Hlast].
  destruct (lookup_lt_is_Some_2 pool j ltac:(lia)) as [picked Hpicked].
  rewrite (list_lookup_total_correct _ _ _ Hlast).
  rewrite (list_lookup_total_correct _ _ _ Hpicked).
  rewrite (take_S_r _ _ _ Hlast).
  destruct (decide (j = m)) as [->|Hne].
  - rewrite take_insert_ge by lia. simplify_eq. apply Permutation_cons_append.
  - rewrite take_insert_lt by lia.
    assert (Hpk : take m pool !! j = Some picked) by (rewrite lookup_take_lt; [done | lia]).
    rewrite insert_take_drop by (rewrite length_take; lia).
    rewrite <- (take_drop_middle (take m pool) j picked Hpk) at 3.
    rewrite <- !Permutation_middle. simpl.
    rewrite app_nil_r. apply perm_swap.
Qed.

(** [random.sample]: the draws succeed, and the selection is made of
    entries at distinct positions of the pool. *)
Lemma sample_go_spec (k : nat) :
  forall (pool : list string) (m : nat) (w : world),
    (k <= m)%nat -> (m <= length pool)%nat ->
    exists sel,
      sample_go env pool m k w = (Ok sel, set_rng (rng w + k) w)
      /\ length sel = k
      /\ sel ⊆+ take m pool.
Proof.
  induction k as [|k IH]; intros pool m w Hk Hm.
  - exists []. simpl. unfold ret. rewrite Nat.add_0_r, set_rng_same.
    repeat split. apply submseteq_nil_l.
  - cbn [sample_go]. unfold bind at 1. unfold randbelow at 1.
    set (j := (random_draw env (rng w) `mod` m)%nat).
    assert (Hj : (j < m)%nat) by (apply Nat.mod_upper_bound; lia).
    destruct (IH (<[j := pool !!! (m - 1)%nat]> pool) (m - 1)%nat (set_rng (S (rng w)) w))
      as (rest & Hrest & Hlen & Hsub); [lia | rewrite length_insert; lia |].
    exists (pool !!! j :: rest).
    unfold bind. rewrite Hrest. unfold ret. simpl rng. rewrite set_rng_set_rng.
    split; [do 2 f_equal; lia|]. split; [simpl; lia|].
    rewrite <- (pool_step_perm pool m j Hj Hm). by apply submseteq_skip.
Qed.

Lemma submseteq_NoDup (sel l : list string) : sel ⊆+ l -> NoDup l -> NoDup sel.
Proof.
  intros [rest Hperm]%submseteq_Permutation Hnd.
  rewrite Hperm in Hnd. by apply NoDup_app in Hnd as [? _].
Qed.

End Selection.

(** The selection step takes the two branches of the source on the size of
    the list. *)
Lemma select_files_branch (env : Env) (files_list : list string) (params : export_params) :
  select_files env files_list params =
    if Z.of_nat (length files_list) <? images_per_video params
    then random_choices env files_list (images_per_video params)
    else random_sample env files_list (images_per_video params).
Proof. reflexivity. Qed.

(** C5, as stated, fails: a list that names the same file twice has two
    entries, two are asked for, and the selection without replacement is
    that file twice. *)
Lemma C5_selection_may_repeat_a_file :
  ~ (forall (env : Env) (files_list : list string) (params : export_params)
            (w w' : world) (sel : list string),
        images_per_video params <= Z.of_nat (length files_list) ->
        select_files env files_list params w = (Ok sel, w') ->
        NoDup sel).
Proof.
  intros Hclaim.
  pose (params := {| images_per_video := 2; output_videos := 1; width := 200; height := 100;
                     per_image_time := 2; fade_duration := 1; audio_file := None;
                     output_folder := "/out"; crossfade := true; closing_image := None |}).
  specialize (Hclaim Scenario.env ["a.png"; "a.png"] params Scenario.start
                (set_rng 2 Scenario.start) ["a.png"; "a.png"]).
  assert (Hnd : NoDup ["a.png"; "a.png"]).
  { apply Hclaim; [simpl; lia | vm_compute; reflexivity]. }
  apply NoDup_cons in Hnd as [Hnotin _]. apply Hnotin. by left.
Qed.

(** C5, amended. With at least [images_per_video] entries in the list the
    job draws that many entries at distinct positions of the list (the
    selection is a sub-multiset of the list), so the selection has no
    duplicates when the list itself has none. With fewer entries, every
    entry of the selection is an independent draw from the whole list, and
    some entry is then repeated. *)
Theorem C5_selection (env : Env) (files_list : list string) (params : export_params)
    (w : world) :
  0 <= images_per_video params ->
  files_list ≠ [] ->
  exists sel,
    select_files env files_list params w
      = (Ok sel, set_rng (rng w + Z.to_nat (images_per_video params)) w)
    /\ length sel = Z.to_nat (images_per_video params)
    /\ if Z.of_nat (length files_list) <? images_per_video params
       then sel = map (fun i => files_list !!!
                                  (random_draw env (rng w + i) `mod` length files_list)%nat)
                      (seq 0 (Z.to_nat (images_per_video params)))
            /\ ~ NoDup sel
       else sel ⊆+ files_list
            /\ (NoDup files_list -> NoDup sel).
Proof.
  intros Hk Hne. rewrite select_files_branch.
  destruct (Z.ltb_spec (Z.of_nat (length files_list)) (images_per_video params)) as [Hlt|Hge].
  - unfold random_choices. rewrite choices_go_spec by done.
    eexists. split; [reflexivity|].
    split; [by rewrite length_map, length_seq|].
    split; [reflexivity|].
    intros Hnd.
    assert (Hsub : map (fun i => files_list !!!
                       (random_draw env (rng w + i) `mod` length files_list)%nat)
                     (seq 0 (Z.to_nat (images_per_video params))) ⊆+ files_list).
    { apply NoDup_submseteq; [done|].
      intros x (i & -> & _)%list_elem_of_fmap.
      apply list_elem_of_lookup_total_2, Nat.mod_upper_bound.
      destruct files_list; simpl; [done | lia]. }
    apply submseteq_length in Hsub. rewrite length_map, length_seq in Hsub. lia.
  - unfold random_sample.
    replace ((0 <=? images_per_video params) && (images_per_video params <=? Z.of_nat (length files_list)))
      with true by (symmetry; apply andb_true_iff; split; apply Z.leb_le; lia).
    cbn [negb].
    destruct (sample_go_spec env (Z.to_nat (images_per_video params)) files_list
                (length files_list) w) as (sel & Hsel & Hlen & Hsub); [lia | lia |].
    rewrite take_ge in Hsub by lia.
    exists sel. split; [done|]. split; [done|]. split; [done|].
    by apply submseteq_NoDup.
Qed.

(** Three files out of five distinct ones: three distinct files. *)
Lemma C5_selection_witness :
  exists sel,
    (select_files Scenario.env ["a"; "b"; "c"; "d"; "e"] Scenario.params Scenario.start).1
      = Ok sel
    /\ length sel = 3%nat /\ NoDup sel.
Proof.
  destruct (C5_selection Scenario.env ["a"; "b"; "c"; "d"; "e"] Scenario.params Scenario.start)
    as (sel & Hsel & Hlen & Hcase).
  - simpl. lia.
  - discriminate.
  - exists sel. rewrite Hsel. split; [reflexivity|]. split; [exact Hlen|].
    simpl in Hcase. destruct Hcase as [_ Hnd]. apply Hnd.
    apply (bool_decide_unpack _). vm_compute. exact I.
Defined.

(** ** Fitting the audio (C7) *)







(** ** The frame cache (C2, C3) *)

Section Cache.

Context (env : Env).


(** All the ways [get_or_create] can go: a hit; a miss whose source does
    not decode; a miss whose frame is written; a miss whose write raises. *)
Lemma get_or_create_cases (file_path : string) (width height : Z) (w : world) :
  let cache_file := cache_file_of env file_path width height in
  get_or_create env file_path width height w =
    if path_exists w cache_file then (Ok cache_file, w)
    else
      let w1 := log_call (Call_ImageClip file_path) w in
      match fs w !! resolve w file_path with
      | Some (File (Image iw ih)) =>
          let fr := produced_frame file_path width height iw ih in
          let w2 := log_call (Call_save_frame fr cache_file) w1 in
          match save_frame_outcome env cache_file with
          | Written =>
              (Ok cache_file,
               set_fs (insert (resolve w cache_file) (File (Image (frame_w fr) (frame_h fr)))) w2)
          | Write_raises msg (Some part) =>
              (Raise msg, set_fs (insert (resolve w cache_file) (File part)) w2)
          | Write_raises msg None => (Raise msg, w2)
          end
      | _ => (Raise (decode_error env file_path), w1)
      end.
Proof.
  intros cache_file. unfold get_or_create. fold cache_file.
  cbv [bind os_path_exists].
  destruct (path_exists w cache_file); [reflexivity|].
  cbv [produce ImageClip bind modify get_world].
  change (fs (log_call (Call_ImageClip file_path) w)) with (fs w).
  change (resolve (log_call (Call_ImageClip file_path) w) file_path) with (resolve w file_path).
  destruct (fs w !! resolve w file_path) as [[[iw ih| | |]|]|]; try reflexivity.
  cbv [ret save_frame bind modify backend_write get_world]. fold (produced_frame file_path width height iw ih).
  destruct (save_frame_outcome env cache_file) as [|msg [part|]]; reflexivity.
Qed.

Lemma path_exists_false (w : world) (p : string) :
  path_exists w p = false -> fs w !! resolve w p = None.
Proof.
  unfold path_exists. intros Hb%bool_decide_eq_false.
  destruct (fs w !! resolve w p) eqn:E; [|done]. exfalso. apply Hb. by eexists.
Qed.

Lemma path_exists_true (w : world) (p : string) :
  path_exists w p = true <-> resolve w p ∈ dom (fs w).
Proof. unfold path_exists. rewrite bool_decide_eq_true. by rewrite elem_of_dom. Qed.

(** C2, as stated, fails: the frame is written straight to the destination
    of the key, so when the write breaks off half-way on a full disk the
    error reaches the caller and the broken file stays at the
    destination. *)
Lemma C2_broken_entry_stays :
  ~ (forall (env' : Env) (file_path : string) (width height : Z) (w w' : world) (e : string),
        get_or_create env' file_path width height w = (Raise e, w') ->
        fs w' !! resolve w (cache_file_of env' file_path width height) = None).
Proof.
  intros Hclaim.
  specialize (Hclaim Scenario.env_disk_full "/app/wide.png" 200 100 Scenario.start
                (get_or_create Scenario.env_disk_full "/app/wide.png" 200 100 Scenario.start).2
                "No space left on device").
  assert (Hgone := Hclaim ltac:(vm_compute; reflexivity)).
  vm_compute in Hgone. discriminate.
Qed.

(** C2, amended. When producing the frame of a key fails, the error
    reaches the caller: whatever the caller meant to do next is skipped.
    The destination was empty before; the job writes to no other path; and
    the frame goes straight to the destination, with no temporary file,
    rename or clean-up: either the source did not decode and the
    destination is still empty, or the write raised and the destination
    holds what the writer left there. *)
Theorem C2_failed_production (file_path : string) (width height : Z)
    (w w' : world) (e : string) :
  get_or_create env file_path width height w = (Raise e, w') ->
  let dest := resolve w (cache_file_of env file_path width height) in
  (forall (B : Type) (k : string -> M B),
      bind (get_or_create env file_path width height) k w = (Raise e, w'))
  /\ fs w !! dest = None
  /\ (forall p, p ≠ dest -> fs w' !! p = fs w !! p)
  /\ ((e = decode_error env file_path /\ fs w' = fs w)
      \/ (exists left_behind,
            save_frame_outcome env (cache_file_of env file_path width height)
              = Write_raises e left_behind
            /\ fs w' !! dest = File <$> left_behind)).
Proof.
  intros Hrun dest.
  split. { intros B k. unfold bind. by rewrite Hrun. }
  rewrite get_or_create_cases in Hrun. cbv zeta in Hrun.
  destruct (path_exists w _) eqn:Hhit; [discriminate|].
  apply path_exists_false in Hhit. fold dest in Hhit, Hrun.
  split; [done|].
  destruct (fs w !! resolve w file_path) as [[[iw ih| | |]|]|];
    try (injection Hrun as <- <-; split; [done | by left]).
  destruct (save_frame_outcome env _) as [|msg [part|]] eqn:Hout; [discriminate| |];
    injection Hrun as <- <-.
  - split.
    + intros p Hp. cbn. by rewrite lookup_insert_ne.
    + right. exists (Some part). split; [done|]. cbn. by rewrite lookup_insert_eq.
  - split; [done|]. right. exists None. split; [done|]. cbn. done.
Qed.

End Cache.

(** A picture that does not decode: the job is told, nothing is written. *)
Lemma C2_failed_production_witness :
  let w := set_fs (insert "/app/broken.png" (File Junk)) Scenario.start in
  exists w',
    get_or_create Scenario.env "/app/broken.png" 200 100 w
      = (Raise "cannot decode /app/broken.png", w')
    /\ fs w' = fs w.
Proof.
  intros w.
  exists (get_or_create Scenario.env "/app/broken.png" 200 100 w).2.
  assert (Hrun : get_or_create Scenario.env "/app/broken.png" 200 100 w
                 = (Raise "cannot decode /app/broken.png",
                    (get_or_create Scenario.env "/app/broken.png" 200 100 w).2))
    by (vm_compute; reflexivity).
  split; [exact Hrun|].
  destruct (C2_failed_production Scenario.env _ _ _ _ _ _ Hrun) as (_ & _ & _ & [[_ Hfs]|Hw]).
  - exact Hfs.
  - destruct Hw as (left_behind & Hout & _). vm_compute in Hout. discriminate.
Defined.


Lemma productions_app (path : string) (cs cs' : list call) :
  productions path (cs ++ cs') = (productions path cs + productions path cs')%nat.
Proof. unfold productions. by rewrite List.filter_app, length_app. Qed.


(** A key whose file is present is served from the cache: same path, and
    the world is left as it was. *)
Lemma get_or_create_hit (env : Env) (file_path : string) (width height : Z) (w : world) :
  path_exists w (cache_file_of env file_path width height) = true ->
  get_or_create env file_path width height w
    = (Ok (cache_file_of env file_path width height), w).
Proof. intros Hhit. rewrite get_or_create_cases. cbv zeta. by rewrite Hhit. Qed.

(** C3. When [get_or_create] has returned the frame of a source at a
    geometry, asking again returns the same path and produces nothing: over
    the two calls the frame was written at most once. The same holds for
    every later call of the process, as long as the files of the cache are
    still there. *)
Theorem C3_get_or_create_twice (env : Env) (file_path : string) (width height : Z)
    (w w1 : world) (p : string) :
  get_or_create env file_path width height w = (Ok p, w1) ->
  p = cache_file_of env file_path width height
  /\ get_or_create env file_path width height w1 = (Ok p, w1)
  /\ (productions p (calls w1) <= productions p (calls w) + 1)%nat
  /\ (forall w2, keeps_files w1 w2 ->
                 get_or_create env file_path width height w2 = (Ok p, w2)).
Proof.
  intros Hrun.
  assert (Hfirst := Hrun). rewrite get_or_create_cases in Hfirst. cbv zeta in Hfirst.
  assert (Hp : p = cache_file_of env file_path width height
               /\ cwd w1 = cwd w
               /\ resolve w p ∈ dom (fs w1)
               /\ (productions p (calls w1) <= productions p (calls w) + 1)%nat).
  { destruct (path_exists w _) eqn:Hhit.
    - injection Hfirst as <- <-. apply path_exists_true in Hhit.
      repeat split; [done | lia].
    - destruct (fs w !! resolve w file_path) as [[[iw ih| | |]|]|]; try discriminate.
      destruct (save_frame_outcome env _) as [|msg [part|]]; try discriminate.
      injection Hfirst as <- <-. repeat split.
      + cbn. rewrite dom_insert. set_solver.
      + cbn [set_fs log_call calls]. rewrite !productions_app.
        unfold productions at 2 3. cbn [List.filter is_save_frame_to length].
        rewrite bool_decide_eq_true_2 by done. cbn [length]. lia. }
  destruct Hp as (-> & Hcwd & Hdom & Hcount).
  assert (Hlater : forall w2, keeps_files w1 w2 ->
            get_or_create env file_path width height w2
              = (Ok (cache_file_of env file_path width height), w2)).
  { intros w2 [Hcwd2 Hsub]. apply get_or_create_hit, path_exists_true.
    unfold resolve in *. rewrite Hcwd2, Hcwd. by apply Hsub. }
  split; [done|]. split; [|split; [done|done]].
  apply Hlater. by split.
Qed.

(** The frame of [/app/wide.png] at 200x100: made once, then served. *)
Lemma C3_get_or_create_twice_witness :
  exists p w1,
    get_or_create Scenario.env "/app/wide.png" 200 100 Scenario.start = (Ok p, w1)
    /\ get_or_create Scenario.env "/app/wide.png" 200 100 w1 = (Ok p, w1)
    /\ productions p (calls w1) = 1%nat.
Proof.
  pose (r := get_or_create Scenario.env "/app/wide.png" 200 100 Scenario.start).
  assert (Hrun : get_or_create Scenario.env "/app/wide.png" 200 100 Scenario.start
                 = (Ok (cache_file_of Scenario.env "/app/wide.png" 200 100), r.2))
    by (vm_compute; reflexivity).
  exists (cache_file_of Scenario.env "/app/wide.png" 200 100), r.2.
  destruct (C3_get_or_create_twice _ _ _ _ _ _ _ Hrun) as (_ & Hagain & _ & _).
  split; [exact Hrun|]. split; [exact Hagain|]. vm_compute. reflexivity.
Defined.

(** ** Outcome and completion signals (C4) *)


Section Signals.

Context (env : Env) (base_dir : string) (files_list : list string)
        (params : export_params).

Lemma run_signals (video_idx : Z) (w : world) :
  (run env base_dir files_list params video_idx w).1 =
    [match (run_body env base_dir files_list params video_idx w).1 with
     | Ok _ => Progress video_idx
     | Raise e => Error (error_message video_idx e)
     end; Finished].
Proof.
  unfold run.
  by destruct (run_body env base_dir files_list params video_idx w) as [[[]|e] w'].
Qed.

Lemma launch_signals (count : nat) :
  forall (video_idx : Z) (w : world),
  exists outcomes,
    (launch env base_dir files_list params video_idx count w).1
      = flat_map (fun o => [o; Finished]) outcomes
    /\ length outcomes = count
    /\ forall (i : nat) (o : signal),
         outcomes !! i = Some o -> outcome_of (video_idx + Z.of_nat i) o.
Proof.
  induction count as [|count IH]; intros video_idx w.
  - exists []. repeat split. intros i o Hi. by rewrite lookup_nil in Hi.
  - cbn [launch].
    pose proof (run_signals video_idx w) as Hrun.
    destruct (run env base_dir files_list params video_idx w) as [emitted w1].
    destruct (IH (video_idx + 1) w1) as (outcomes & Hlater & Hlen & Hall).
    destruct (launch env base_dir files_list params (video_idx + 1) count w1) as [later w2].
    cbn [fst] in *. subst emitted later.
    eexists (_ :: outcomes). split; [reflexivity|]. split; [simpl; lia|].
    intros [|i] o Hi; cbn in Hi.
    + injection Hi as <-. rewrite Z.add_0_r.
      destruct (run_body _ _ _ _ _ _).1; [by left | right; by eexists].
    + replace (video_idx + Z.of_nat (S i)) with (video_idx + 1 + Z.of_nat i) by lia.
      by apply Hall.
Qed.


End Signals.

(** ** Which files are films (C8) *)


Lemma new_calls_app (w w' : world) (cs : list call) :
  calls w' = calls w ++ cs -> new_calls w w' = cs.
Proof. intros Hnew. unfold new_calls. rewrite Hnew. apply drop_app_length. Qed.

Lemma new_calls_same (w w' : world) : calls w' = calls w -> new_calls w w' = [].
Proof. intros Hsame. unfold new_calls. rewrite Hsame. apply drop_all. Qed.

(** What [get_or_create] logs: nothing on a hit; on a miss the load of the
    source, followed by the write when the source decodes. *)
Lemma get_or_create_calls (env : Env) (file_path : string) (width height : Z) (w : world) :
  let r := get_or_create env file_path width height w in
  exists cs,
    calls r.2 = calls w ++ cs
    /\ existsb is_video_call cs = false
    /\ match r.1 with
       | Ok _ => True
       | Raise _ => existsb is_image_call cs = true
       end.
Proof.
  rewrite get_or_create_cases. cbv zeta.
  destruct (path_exists w _).
  { exists []. by rewrite app_nil_r. }
  destruct (fs w !! resolve w file_path) as [[[iw ih| | |]|]|];
    try (eexists [_]; by repeat split).
  destruct (save_frame_outcome env _) as [|msg [part|]];
    (eexists [_; _]; cbn; rewrite <- app_assoc; by repeat split).
Qed.

(** What [ImageClip] and [VideoFileClip] log: themselves. *)
Lemma ImageClip_calls (env : Env) (path : string) (w : world) :
  calls (ImageClip env path w).2 = calls w ++ [Call_ImageClip path].
Proof.
  cbv [ImageClip bind modify get_world].
  change (fs (log_call (Call_ImageClip path) w)) with (fs w).
  change (resolve (log_call (Call_ImageClip path) w) path) with (resolve w path).
  by destruct (fs w !! resolve w path) as [[[]|]|].
Qed.

Lemma VideoFileClip_calls (env : Env) (path : string) (w : world) :
  calls (VideoFileClip env path w).2 = calls w ++ [Call_VideoFileClip path].
Proof.
  cbv [VideoFileClip bind modify get_world].
  change (fs (log_call (Call_VideoFileClip path) w)) with (fs w).
  change (resolve (log_call (Call_VideoFileClip path) w) path) with (resolve w path).
  by destruct (fs w !! resolve w path) as [[[]|]|].
Qed.

(** The image treatment of a path: the frame from the cache, then the clip
    loaded from the cached frame. It logs at least one [ImageClip] and no
    [VideoFileClip]. *)
Lemma image_treatment_calls (env : Env) (path : string) (width height : Z)
    (B : Type) (k : frame -> M B) (w : world) :
  (forall fr w0, calls (k fr w0).2 = calls w0) ->
  exists cs,
    calls (bind (get_or_create env path width height)
             (fun processed => bind (ImageClip env processed) k) w).2 = calls w ++ cs
    /\ existsb is_video_call cs = false
    /\ existsb is_image_call cs = true.
Proof.
  intros Hk.
  destruct (get_or_create_calls env path width height w) as (cs & Hcs & Hvid & Himg).
  unfold bind at 1.
  destruct (get_or_create env path width height w) as [[processed|e] w1]; cbn [fst snd] in *.
  - unfold bind.
    pose proof (ImageClip_calls env processed w1) as Hload.
    exists (cs ++ [Call_ImageClip processed]).
    rewrite !existsb_app, Hvid. cbn [existsb is_video_call is_image_call orb].
    rewrite orb_true_r.
    destruct (ImageClip env processed w1) as [[fr|e] w2]; cbn [snd] in *.
    + by rewrite Hk, Hload, Hcs, app_assoc.
    + by rewrite Hload, Hcs, app_assoc.
  - by exists cs.
Qed.

(** Steps of the monad that never raise. *)
Lemma bind_isfile {B : Type} (p : string) (k : bool -> M B) (w : world) :
  bind (os_path_isfile p) k w = k (isfile w p) w.
Proof. reflexivity. Qed.

Lemma bind_print {B : Type} (line : string) (k : unit -> M B) (w : world) :
  bind (print line) k w = k tt (log_line line w).
Proof. reflexivity. Qed.

Lemma bind_ret {A B : Type} (a : A) (k : A -> M B) (w : world) :
  bind (ret a) k w = k a w.
Proof. reflexivity. Qed.


(** C8. For a selected file that exists, the job opens it as a video
    exactly when its path in lower case ends with ".mp4", ".mov" or ".avi",
    and gives it the image treatment in every other case. The closing image
    is never opened as a video, whatever its extension: when it is
    considered at all it gets the image treatment. *)
Theorem C8_video_by_suffix (env : Env) (base_dir : string) (width height : Z)
    (per_image_time : Q) (clips : list clip) (file_path : string)
    (closing_image : option string) (w : world) :
  isfile w (against base_dir file_path) = true ->
  let is_video :=
    Str.endswith_any [".mp4"; ".mov"; ".avi"] (Str.lower (against base_dir file_path)) in
  let w_asset :=
    (process_file env base_dir width height per_image_time clips file_path w).2 in
  let w_closing := (process_closing env base_dir width height closing_image w).2 in
  existsb is_video_call (new_calls w w_asset) = is_video
  /\ existsb is_image_call (new_calls w w_asset) = negb is_video
  /\ existsb is_video_call (new_calls w w_closing) = false
  /\ existsb is_image_call (new_calls w w_closing)
     = closing_considered base_dir closing_image w.
Proof.
  intros Hfile is_video w_asset w_closing.
  assert (Hasset : exists cs, calls w_asset = calls w ++ cs
                     /\ existsb is_video_call cs = is_video
                     /\ existsb is_image_call cs = negb is_video).
  { subst w_asset. unfold process_file. rewrite bind_isfile, Hfile. cbn [negb].
    fold video_suffixes in is_video. fold is_video.
    destruct is_video.
    - exists [Call_VideoFileClip (against base_dir file_path)].
      pose proof (VideoFileClip_calls env (against base_dir file_path) w) as Hlog.
      unfold bind.
      destruct (VideoFileClip env (against base_dir file_path) w) as [[c|e] w1]; by cbn in *.
    - by apply image_treatment_calls. }
  assert (Hclosing : exists cs, calls w_closing = calls w ++ cs
                     /\ existsb is_video_call cs = false
                     /\ existsb is_image_call cs = closing_considered base_dir closing_image w).
  { subst w_closing. unfold process_closing, closing_considered.
    destruct closing_image as [ci|]; [|exists []; by rewrite app_nil_r].
    destruct (Str.truthy ci && negb (String.eqb (Str.strip ci) EmptyString));
      [|exists []; by rewrite app_nil_r].
    rewrite bind_isfile. cbn [andb].
    destruct (isfile w (against base_dir ci)); [|exists []; by rewrite app_nil_r].
    by apply image_treatment_calls. }
  destruct Hasset as (cs & Hcs & Hv & Hi). destruct Hclosing as (cs' & Hcs' & Hv' & Hi').
  by rewrite (new_calls_app _ _ _ Hcs), (new_calls_app _ _ _ Hcs').
Qed.

(** [film.MP4] is opened as a video; [end.mp4], given as the closing image,
    is opened as an image. *)
Lemma C8_video_by_suffix_witness :
  let w_asset := (process_file Scenario.env "/app" 200 100 2 [] "film.MP4" Scenario.start).2 in
  let w_closing := (process_closing Scenario.env "/app" 200 100 (Some "end.mp4") Scenario.start).2 in
  existsb is_video_call (new_calls Scenario.start w_asset) = true
  /\ existsb is_video_call (new_calls Scenario.start w_closing) = false
  /\ existsb is_image_call (new_calls Scenario.start w_closing) = true.
Proof.
  destruct (C8_video_by_suffix Scenario.env "/app" 200 100 2 [] "film.MP4" (Some "end.mp4")
              Scenario.start) as (Hv & _ & Hcv & Hci).
  - vm_compute. reflexivity.
  - cbv zeta. rewrite Hv, Hcv, Hci. vm_compute. repeat split.
Defined.

(** ** A job with no usable segment (C9) *)

(** Files that are all missing are skipped one by one, with a line printed
    for each, and leave the list of clips as it was. *)
Lemma process_files_all_missing (env : Env) (base_dir : string) (width height : Z)
    (per_image_time : Q) (sample_files : list string) :
  forall (clips : list clip) (w : world),
    Forall (fun f => isfile w (against base_dir f) = false) sample_files ->
    process_files env base_dir width height per_image_time clips sample_files w
      = (Ok clips,
         foldl (fun w0 f => log_line ("File not found: " +:+ against base_dir f) w0)
               w sample_files).
Proof.
  induction sample_files as [|f rest IH]; intros clips w Hmissing; [reflexivity|].
  apply Forall_cons in Hmissing as [Hf Hrest].
  cbn [process_files foldl]. unfold bind at 1. unfold process_file.
  rewrite bind_isfile, Hf. cbn [negb]. rewrite bind_print.
  unfold ret at 1. cbv beta iota.
  by apply IH.
Qed.

(** C9. When the loop over the selected files ends with an empty list of
    clips the job fails with "No valid files to process for video
    creation.", even though the closing image was found and its clip
    prepared: the test on the list comes before the closing clip is joined
    to anything. *)
Theorem C9_closing_clip_does_not_count (env : Env) (base_dir : string)
    (files_list : list string) (params : export_params) (video_idx : Z)
    (w w1 w2 w3 : world) (sample_files : list string) (closing_clip : clip) :
  select_files env files_list params w = (Ok sample_files, w1) ->
  process_files env base_dir (width params) (height params) (per_image_time params)
    [] sample_files w1 = (Ok [], w2) ->
  process_closing env base_dir (width params) (height params) (closing_image params) w2
    = (Ok (Some closing_clip), w3) ->
  run env base_dir files_list params video_idx w
    = ([Error (error_message video_idx "No valid files to process for video creation.");
        Finished], w3).
Proof.
  intros Hsel Hloop Hclosing. unfold run, run_body, bind.
  by rewrite Hsel, Hloop, Hclosing.
Qed.

(** The only file of the category is missing; the closing image is there
    and its frame goes to the cache; the job fails all the same. *)
Lemma C9_closing_clip_does_not_count_witness :
  let params := {| images_per_video := 1; output_videos := 1; width := 200; height := 100;
                   per_image_time := 2; fade_duration := 1; audio_file := None;
                   output_folder := "/out"; crossfade := true;
                   closing_image := Some "end.mp4" |} in
  exists w3,
    run Scenario.env "/app" ["gone.png"] params 7 Scenario.start
      = ([Error "Error in video 7: No valid files to process for video creation."; Finished], w3)
    /\ is_Some (fs w3 !! cache_file_of Scenario.env "/app/end.mp4" 200 100).
Proof.
  intros params.
  pose (w1 := (select_files Scenario.env ["gone.png"] params Scenario.start).2).
  pose (w2 := (process_files Scenario.env "/app" 200 100 2 [] ["gone.png"] w1).2).
  pose (r3 := process_closing Scenario.env "/app" 200 100 (Some "end.mp4") w2).
  exists r3.2. split.
  - apply (C9_closing_clip_does_not_count Scenario.env "/app" ["gone.png"] params 7
             Scenario.start w1 w2 r3.2 ["gone.png"]
             (set_duration 3 (Scenario.still (cache_file_of Scenario.env "/app/end.mp4" 200 100))));
      vm_compute; reflexivity.
  - vm_compute. eexists. reflexivity.
Defined.

(** ** Which directory a relative path is taken from (C10) *)

Module StrFacts.









End StrFacts.





(** ** A batch in which one job fails

    Writing [video_2.mp4] fails in the encoder. The four jobs each emit an
    outcome and [finished]; the second one reports the failure, the others
    succeed. *)
Module FailingSibling.

Lemma batch_runs_to_the_end :
  (start_export Scenario.env_encoder_fails "/app" ["wide.png"; "tall.png"; "film.MP4"; "gone.png"]
     Scenario.params Scenario.start).1
  = [Progress 1; Finished;
     Error "Error in video 2: encoder exited with status 1"; Finished;
     Progress 3; Finished;
     Progress 4; Finished].
Proof. vm_compute. reflexivity. Qed.

(** Over the four jobs of the batch each frame of the cache was written
    once, and the job that failed left the cache as the others need it. *)
Lemma batch_writes_each_frame_once :
  let w := (start_export Scenario.env_encoder_fails "/app"
              ["wide.png"; "tall.png"; "film.MP4"; "gone.png"]
              Scenario.params Scenario.start).2 in
  productions (cache_file_of Scenario.env "/app/wide.png" 200 100) (calls w) = 1%nat
  /\ productions (cache_file_of Scenario.env "/app/tall.png" 200 100) (calls w) = 1%nat.
Proof. vm_compute. split; reflexivity. Qed.

End FailingSibling.

(** ** The job never removes a file

    Every step of the job keeps the working directory and the files that
    are there, so a frame that entered the cache is found by every later
    call of the process. *)


Lemma keeps_files_refl (w : world) : keeps_files w w.
Proof. by split. Qed.

Lemma keeps_files_trans (w1 w2 w3 : world) :
  keeps_files w1 w2 -> keeps_files w2 w3 -> keeps_files w1 w3.
Proof. intros [Hc1 Hd1] [Hc2 Hd2]. split; [congruence | set_solver]. Qed.

Lemma steady_ret {A : Type} (a : A) : steady (ret a).
Proof. intros w. apply keeps_files_refl. Qed.

Lemma steady_raise {A : Type} (e : string) : steady (@raise A e).
Proof. intros w. apply keeps_files_refl. Qed.

Lemma steady_bind {A B : Type} (m : M A) (k : A -> M B) :
  steady m -> (forall a, steady (k a)) -> steady (bind m k).
Proof.
  intros Hm Hk w. unfold bind. specialize (Hm w).
  destruct (m w) as [[a|e] w1]; [|done].
  eapply keeps_files_trans; [exact Hm | apply Hk].
Qed.

Lemma steady_modify (f : world -> world) :
  (forall w, keeps_files w (f w)) -> steady (modify f).
Proof. intros Hf w. apply Hf. Qed.

Lemma steady_log_call (c : call) : steady (modify (log_call c)).
Proof. apply steady_modify. intros w. by split. Qed.

Lemma steady_print (line : string) : steady (print line).
Proof. apply steady_modify. intros w. by split. Qed.

Lemma steady_get_world : steady get_world.
Proof. intros w. apply keeps_files_refl. Qed.

Lemma steady_insert (p : string) (n : node) : steady (modify (set_fs (insert p n))).
Proof.
  apply steady_modify. intros w. split; [done|]. cbn. rewrite dom_insert. set_solver.
Qed.

Lemma steady_isfile (p : string) : steady (os_path_isfile p).
Proof. intros w. apply keeps_files_refl. Qed.

Lemma steady_exists (p : string) : steady (os_path_exists p).
Proof. intros w. apply keeps_files_refl. Qed.

Lemma steady_randbelow (env : Env) (n : nat) : steady (randbelow env n).
Proof. intros w. by split. Qed.

Lemma steady_audio_loop (a : aclip) (d : Q) : steady (audio_loop a d).
Proof. unfold audio_loop. destruct (Qeq_bool _ _); [apply steady_raise | apply steady_ret]. Qed.

Create HintDb steady.
#[local] Hint Resolve steady_ret steady_raise steady_log_call steady_print steady_get_world
  steady_insert steady_isfile steady_exists steady_randbelow steady_audio_loop : steady.

(** Splits a compound step into its parts. *)
Ltac steady_step :=
  match goal with
  | |- steady (bind _ _) => apply steady_bind; [|intros ?]
  | |- steady (match ?x with _ => _ end) => destruct x
  | |- steady (if ?b then _ else _) => destruct b
  | |- steady _ => solve [auto with steady]
  end.

Ltac steady_auto := repeat steady_step.

Section Steady.

Context (env : Env).

Lemma steady_backend_write (o : write_outcome) (c : content) (path : string) :
  steady (backend_write o c path).
Proof. unfold backend_write. steady_auto. Qed.

Lemma steady_ImageClip (path : string) : steady (ImageClip env path).
Proof. unfold ImageClip. steady_auto. Qed.

Lemma steady_VideoFileClip (path : string) : steady (VideoFileClip env path).
Proof. unfold VideoFileClip. steady_auto. Qed.

Lemma steady_AudioFileClip (path : string) : steady (AudioFileClip env path).
Proof. unfold AudioFileClip. steady_auto. Qed.

Hint Resolve steady_backend_write steady_ImageClip steady_VideoFileClip
  steady_AudioFileClip : steady.

Lemma steady_save_frame (fr : frame) (path : string) : steady (save_frame env fr path).
Proof. unfold save_frame. steady_auto. Qed.

Lemma steady_write_videofile (m : movie) (path : string) :
  steady (write_videofile env m path).
Proof. unfold write_videofile. steady_auto. Qed.

Hint Resolve steady_save_frame steady_write_videofile : steady.

Lemma steady_get_or_create (file_path : string) (width height : Z) :
  steady (get_or_create env file_path width height).
Proof. unfold get_or_create, produce. steady_auto. Qed.

Lemma steady_choices_go (population : list string) (k : nat) :
  steady (choices_go env population k).
Proof. induction k as [|k IH]; cbn [choices_go]; steady_auto. Qed.

Lemma steady_sample_go (k : nat) :
  forall (pool : list string) (m : nat), steady (sample_go env pool m k).
Proof. induction k as [|k IH]; intros pool m; cbn [sample_go]; steady_auto. Qed.

Hint Resolve steady_get_or_create steady_choices_go steady_sample_go : steady.

Lemma steady_process_file (base_dir : string) (width height : Z) (t : Q)
    (clips : list clip) (file_path : string) :
  steady (process_file env base_dir width height t clips file_path).
Proof. unfold process_file. steady_auto. Qed.

Hint Resolve steady_process_file : steady.

Lemma steady_process_files (base_dir : string) (width height : Z) (t : Q)
    (sample_files : list string) :
  forall clips, steady (process_files env base_dir width height t clips sample_files).
Proof.
  induction sample_files as [|f rest IH]; intros clips; cbn [process_files]; steady_auto.
Qed.

Lemma steady_process_closing (base_dir : string) (width height : Z)
    (closing_image : option string) :
  steady (process_closing env base_dir width height closing_image).
Proof. unfold process_closing. steady_auto. Qed.

Lemma steady_build_final_clip (use_crossfade : bool) (fade : Q) (clips : list clip)
    (closing_clip : option clip) :
  steady (build_final_clip use_crossfade fade clips closing_clip).
Proof. unfold build_final_clip. steady_auto. Qed.

Hint Resolve steady_process_files steady_process_closing steady_build_final_clip : steady.

Lemma steady_run_body (base_dir : string) (files_list : list string)
    (params : export_params) (video_idx : Z) :
  steady (run_body env base_dir files_list params video_idx).
Proof.
  unfold run_body, select_files, random_choices, random_sample, attach_audio.
  steady_auto.
Qed.

(** A job, and a whole batch, leave every file of the cache in place. *)
Lemma run_keeps_files (base_dir : string) (files_list : list string)
    (params : export_params) (video_idx : Z) (w : world) :
  keeps_files w (run env base_dir files_list params video_idx w).2.
Proof.
  unfold run. pose proof (steady_run_body base_dir files_list params video_idx w) as Hw.
  by destruct (run_body env base_dir files_list params video_idx w) as [[[]|e] w'].
Qed.

Lemma launch_keeps_files (base_dir : string) (files_list : list string)
    (params : export_params) (count : nat) :
  forall (video_idx : Z) (w : world),
    keeps_files w (launch env base_dir files_list params video_idx count w).2.
Proof.
  induction count as [|count IH]; intros video_idx w; cbn [launch].
  - apply keeps_files_refl.
  - pose proof (run_keeps_files base_dir files_list params video_idx w) as Hrun.
    destruct (run env base_dir files_list params video_idx w) as [emitted w1].
    specialize (IH (video_idx + 1) w1).
    destruct (launch env base_dir files_list params (video_idx + 1) count w1) as [later w2].
    cbn [snd] in *. by eapply keeps_files_trans.
Qed.

End Steady.


(** ** Each frame is written once in the life of the process

    As long as a write that fails leaves its file behind, the cache and the
    log stay in agreement through every job: a destination is written at
    most once, however many jobs ask for it. *)

Lemma cache_sound_step (w w' : world) :
  keeps_files w w' ->
  (forall p, productions p (calls w') = productions p (calls w)) ->
  cache_sound w -> cache_sound w'.
Proof.
  intros [Hcwd Hdom] Hsame Hsound p. destruct (Hsound p) as [Hle Hthere].
  rewrite Hsame. split; [done|]. intros Hone.
  unfold resolve. rewrite Hcwd. by apply Hdom, Hthere.
Qed.

Lemma productions_single (p : string) (c : call) :
  productions p [c] = if is_save_frame_to p c then 1%nat else 0%nat.
Proof. unfold productions. cbn. by destruct (is_save_frame_to p c). Qed.

Lemma orderly_ret {A : Type} (a : A) : orderly (ret a).
Proof. by intros w. Qed.

Lemma orderly_raise {A : Type} (e : string) : orderly (@raise A e).
Proof. by intros w. Qed.

Lemma orderly_bind {A B : Type} (m : M A) (k : A -> M B) :
  orderly m -> (forall a, orderly (k a)) -> orderly (bind m k).
Proof.
  intros Hm Hk w Hw. unfold bind. specialize (Hm w Hw).
  destruct (m w) as [[a|e] w1]; [by apply Hk | done].
Qed.

Lemma orderly_get_world : orderly get_world.
Proof. by intros w. Qed.

Lemma orderly_isfile (p : string) : orderly (os_path_isfile p).
Proof. by intros w. Qed.

Lemma orderly_exists (p : string) : orderly (os_path_exists p).
Proof. by intros w. Qed.

Lemma orderly_print (line : string) : orderly (print line).
Proof. intros w. by apply cache_sound_step. Qed.

Lemma orderly_randbelow (env : Env) (n : nat) : orderly (randbelow env n).
Proof. intros w. by apply cache_sound_step. Qed.

Lemma orderly_insert (p : string) (n : node) : orderly (modify (set_fs (insert p n))).
Proof. intros w. apply cache_sound_step; [apply steady_insert | done]. Qed.

Lemma orderly_log_call (c : call) :
  (forall p, is_save_frame_to p c = false) -> orderly (modify (log_call c)).
Proof.
  intros Hc w. apply cache_sound_step; [by split|].
  intros p. cbn [modify log_call snd calls].
  rewrite productions_app, productions_single, Hc. lia.
Qed.

Lemma orderly_audio_loop (a : aclip) (d : Q) : orderly (audio_loop a d).
Proof. unfold audio_loop. destruct (Qeq_bool _ _); [apply orderly_raise | apply orderly_ret]. Qed.

Create HintDb orderly.
#[local] Hint Resolve orderly_ret orderly_raise orderly_get_world orderly_isfile orderly_exists
  orderly_print orderly_randbelow orderly_insert orderly_audio_loop : orderly.
#[local] Hint Extern 1 (orderly (modify (log_call _))) =>
  (apply orderly_log_call; intros ?; reflexivity) : orderly.

Ltac orderly_step :=
  match goal with
  | |- orderly (bind _ _) => apply orderly_bind; [|intros ?]
  | |- orderly (match ?x with _ => _ end) => destruct x
  | |- orderly (if ?b then _ else _) => destruct b
  | |- orderly _ => solve [auto with orderly]
  end.

Ltac orderly_auto := repeat orderly_step.

Section Orderly.

Context (env : Env) (Hsave : save_leaves_a_file env).

Lemma orderly_get_or_create (file_path : string) (width height : Z) :
  orderly (get_or_create env file_path width height).
Proof.
  intros w Hw. rewrite get_or_create_cases. cbv zeta.
  set (cache_file := cache_file_of env file_path width height).
  destruct (path_exists w cache_file) eqn:Hhit; [done|].
  assert (Hzero : productions cache_file (calls w) = 0%nat).
  { destruct (Hw cache_file) as [Hle Hthere].
    destruct (productions cache_file (calls w)) as [|[|n]] eqn:Hn; [done| |lia].
    apply path_exists_true in Hthere; [congruence | done]. }
  assert (Hload : cache_sound (log_call (Call_ImageClip file_path) w)).
  { by apply (orderly_log_call (Call_ImageClip file_path)). }
  destruct (fs w !! resolve w file_path) as [[[iw ih| | |]|]|]; try exact Hload.
  assert (Hwritten : forall c,
            cache_sound
              (set_fs (insert (resolve w cache_file) (File c))
                 (log_call (Call_save_frame (produced_frame file_path width height iw ih)
                              cache_file)
                    (log_call (Call_ImageClip file_path) w)))).
  { intros c p. cbn [set_fs log_call calls fs]. rewrite !productions_app.
    rewrite !productions_single. cbn [is_save_frame_to].
    change (resolve _ p) with (resolve w p). rewrite dom_insert.
    destruct (Hw p) as [Hle Hthere].
    destruct (decide (cache_file = p)) as [<-|Hne].
    - rewrite bool_decide_eq_true_2 by done. rewrite Hzero.
      split; [lia | set_solver].
    - rewrite bool_decide_eq_false_2 by done. rewrite !Nat.add_0_r.
      split; [done|]. intros Hone. specialize (Hthere Hone). set_solver. }
  destruct (save_frame_outcome env cache_file) as [|msg [part|]] eqn:Hout.
  - apply Hwritten.
  - apply Hwritten.
  - by destruct (Hsave cache_file msg).
Qed.

Lemma orderly_backend_write (o : write_outcome) (c : content) (path : string) :
  orderly (backend_write o c path).
Proof. unfold backend_write. orderly_auto. Qed.

Lemma orderly_ImageClip (path : string) : orderly (ImageClip env path).
Proof. unfold ImageClip. orderly_auto. Qed.

Lemma orderly_VideoFileClip (path : string) : orderly (VideoFileClip env path).
Proof. unfold VideoFileClip. orderly_auto. Qed.

Lemma orderly_AudioFileClip (path : string) : orderly (AudioFileClip env path).
Proof. unfold AudioFileClip. orderly_auto. Qed.

Hint Resolve orderly_get_or_create orderly_backend_write orderly_ImageClip
  orderly_VideoFileClip orderly_AudioFileClip : orderly.

Lemma orderly_write_videofile (m : movie) (path : string) :
  orderly (write_videofile env m path).
Proof. unfold write_videofile. orderly_auto. Qed.

Lemma orderly_choices_go (population : list string) (k : nat) :
  orderly (choices_go env population k).
Proof. induction k as [|k IH]; cbn [choices_go]; orderly_auto. Qed.

Lemma orderly_sample_go (k : nat) :
  forall (pool : list string) (m : nat), orderly (sample_go env pool m k).
Proof. induction k as [|k IH]; intros pool m; cbn [sample_go]; orderly_auto. Qed.

Hint Resolve orderly_write_videofile orderly_choices_go orderly_sample_go : orderly.

Lemma orderly_process_file (base_dir : string) (width height : Z) (t : Q)
    (clips : list clip) (file_path : string) :
  orderly (process_file env base_dir width height t clips file_path).
Proof. unfold process_file. orderly_auto. Qed.

Hint Resolve orderly_process_file : orderly.

Lemma orderly_process_files (base_dir : string) (width height : Z) (t : Q)
    (sample_files : list string) :
  forall clips, orderly (process_files env base_dir width height t clips sample_files).
Proof.
  induction sample_files as [|f rest IH]; intros clips; cbn [process_files]; orderly_auto.
Qed.

Lemma orderly_process_closing (base_dir : string) (width height : Z)
    (closing_image : option string) :
  orderly (process_closing env base_dir width height closing_image).
Proof. unfold process_closing. orderly_auto. Qed.

Lemma orderly_build_final_clip (use_crossfade : bool) (fade : Q) (clips : list clip)
    (closing_clip : option clip) :
  orderly (build_final_clip use_crossfade fade clips closing_clip).
Proof. unfold build_final_clip. orderly_auto. Qed.

Hint Resolve orderly_process_files orderly_process_closing orderly_build_final_clip : orderly.

Lemma orderly_run_body (base_dir : string) (files_list : list string)
    (params : export_params) (video_idx : Z) :
  orderly (run_body env base_dir files_list params video_idx).
Proof.
  unfold run_body, select_files, random_choices, random_sample, attach_audio.
  orderly_auto.
Qed.

Lemma launch_cache_sound (base_dir : string) (files_list : list string)
    (params : export_params) (count : nat) :
  forall (video_idx : Z) (w : world),
    cache_sound w ->
    cache_sound (launch env base_dir files_list params video_idx count w).2.
Proof.
  induction count as [|count IH]; intros video_idx w Hw; cbn [launch]; [done|].
  pose proof (orderly_run_body base_dir files_list params video_idx w Hw) as Hrun.
  unfold run.
  destruct (run_body env base_dir files_list params video_idx w) as [[[]|e] w1];
    cbn [snd] in Hrun; specialize (IH (video_idx + 1) w1 Hrun);
    by destruct (launch env base_dir files_list params (video_idx + 1) count w1).
Qed.

(** From a fresh process, a whole batch writes each frame of the cache at
    most once. *)
Lemma start_export_writes_each_frame_once (base_dir : string) (files_list : list string)
    (params : export_params) (w : world) (p : string) :
  calls w = [] ->
  (productions p (calls (start_export env base_dir files_list params w).2) <= 1)%nat.
Proof.
  intros Hfresh. apply launch_cache_sound.
  intros q. rewrite Hfresh. cbn. split; [lia | discriminate].
Qed.

End Orderly.

(** * Further properties of the code *)

(** ** Frames and clips take the size of the canvas *)



(** ** Names of cache files and of output files *)

Section Names.

Lemma has_char_app (c : ascii) (s t : string) :
  has_char c (s +:+ t) = has_char c s || has_char c t.
Proof.
  induction s as [|a s IH]; [done|].
  change (String a s +:+ t) with (String a (s +:+ t)). cbn [has_char].
  by rewrite IH, orb_assoc.
Qed.

Lemma pretty_N_char_digit (n : N) : has_char "_" (String (pretty_N_char n) EmptyString) = false.
Proof.
  unfold pretty_N_char.
  destruct n as [|p]; [reflexivity|].
  do 4 (try destruct p as [p|p|]); reflexivity.
Qed.

Lemma pretty_N_go_no_underscore (x : N) :
  forall s, has_char "_" s = false -> has_char "_" (pretty_N_go x s) = false.
Proof.
  induction (N.lt_wf_0 x) as [x _ IH]. intros s Hs.
  destruct (decide (x = 0%N)) as [->|Hx].
  - by rewrite pretty_N_go_0.
  - rewrite pretty_N_go_step by lia. apply IH.
    + apply N.div_lt; lia.
    + change (String ?a s) with (String a EmptyString +:+ s).
      by rewrite has_char_app, pretty_N_char_digit, Hs.
Qed.

Lemma pretty_N_no_underscore (n : N) : has_char "_" (pretty n) = false.
Proof.
  unfold pretty, pretty_N. case_decide; [reflexivity|].
  by apply pretty_N_go_no_underscore.
Qed.

(** The decimal text of an integer has no underscore. *)
Lemma pretty_Z_no_underscore (z : Z) : has_char "_" (pretty z) = false.
Proof.
  destruct z as [|p|p]; [reflexivity| |].
  - apply (pretty_N_no_underscore (N.pos p)).
  - change (pretty (Z.neg p)) with ("-" +:+ pretty (N.pos p)).
    rewrite has_char_app. apply (pretty_N_no_underscore (N.pos p)).
Qed.

Lemma append_nil_l (s : string) : EmptyString +:+ s = s.
Proof. reflexivity. Qed.

Lemma append_cons (a : ascii) (s t : string) : String a s +:+ t = String a (s +:+ t).
Proof. reflexivity. Qed.

(** Two texts that end with an underscore followed by a part without
    underscore are equal only when both parts are. *)
Lemma split_last_underscore (p1 p2 a1 a2 : string) :
  has_char "_" a1 = false -> has_char "_" a2 = false ->
  p1 +:+ "_" +:+ a1 = p2 +:+ "_" +:+ a2 -> p1 = p2 /\ a1 = a2.
Proof.
  intros H1 H2. revert p2. induction p1 as [|c1 p1 IH]; intros [|c2 p2] Heq;
    rewrite ?append_cons, ?append_nil_l in Heq.
  - by injection Heq as ->.
  - exfalso. injection Heq as <- Heq. subst a1.
    rewrite has_char_app in H1. cbn in H1. by rewrite orb_true_r in H1.
  - exfalso. injection Heq as -> Heq. subst a2.
    rewrite has_char_app in H2. cbn in H2. by rewrite orb_true_r in H2.
  - injection Heq as -> Heq.
    assert (Heq' : p1 +:+ "_" +:+ a1 = p2 +:+ "_" +:+ a2)
      by (by rewrite ?append_cons, ?append_nil_l).
    by destruct (IH _ Heq') as [-> ->].
Qed.

Lemma append_assoc (s t u : string) : (s +:+ t) +:+ u = s +:+ t +:+ u.
Proof.
  induction s as [|a s IH]; [done|]. rewrite !append_cons. by rewrite IH.
Qed.

Lemma append_length (s t : string) :
  String.length (s +:+ t) = (String.length s + String.length t)%nat.
Proof.
  induction s as [|a s IH]; [done|]. rewrite append_cons. cbn [String.length].
  by rewrite IH.
Qed.

(** Cancelling a common end. *)
Lemma append_inj_l (s1 s2 t : string) : s1 +:+ t = s2 +:+ t -> s1 = s2.
Proof.
  revert s2. induction s1 as [|a s1 IH]; intros [|b s2] Heq; [done| | |];
    rewrite ?append_cons, ?append_nil_l in Heq.
  - apply (f_equal String.length) in Heq.
    cbn [String.length] in Heq. rewrite append_length in Heq. lia.
  - apply (f_equal String.length) in Heq.
    cbn [String.length] in Heq. rewrite append_length in Heq. lia.
  - injection Heq as -> Heq. by rewrite (IH _ Heq).
Qed.

Lemma cache_file_of_key (env : Env) (file_path : string) (width height : Z) :
  cache_file_of env file_path width height
  = Path.join (DISK_CACHE_DIR env)
      (md5_hexdigest env (cache_key_of file_path width height) +:+ ".png").
Proof. reflexivity. Qed.

End Names.

(** X3. The name of a cache file is the digest of a text that tells the
    source path, the width and the height apart: two requests have the
    same text only when they agree on all three. *)
Theorem X3_cache_key_injective (env : Env) (path1 path2 : string) (w1 h1 w2 h2 : Z) :
  cache_file_of env path1 w1 h1
    = Path.join (DISK_CACHE_DIR env)
        (md5_hexdigest env (cache_key_of path1 w1 h1) +:+ ".png")
  /\ (cache_key_of path1 w1 h1 = cache_key_of path2 w2 h2
      <-> path1 = path2 /\ w1 = w2 /\ h1 = h2).
Proof.
  split; [reflexivity|].
  split; [|by intros (-> & -> & ->)].
  unfold cache_key_of. intros Heq.
  assert (Hsplit : (path1 +:+ "_" +:+ pretty w1) +:+ "_" +:+ pretty h1
                   = (path2 +:+ "_" +:+ pretty w2) +:+ "_" +:+ pretty h2).
  { by rewrite !append_assoc. }
  apply split_last_underscore in Hsplit as [Hrest Hh];
    [|apply pretty_Z_no_underscore..].
  apply split_last_underscore in Hrest as [Hpath Hw];
    [|apply pretty_Z_no_underscore..].
  repeat split; [done | by apply (inj pretty) | by apply (inj pretty)].
Qed.

(** X4. Jobs with different indices write to different paths: in a given
    output folder the path of [video_i.mp4] determines [i]. *)
Theorem X4_output_paths_distinct (output_folder : string) (i j : Z) :
  output_path_of output_folder i = output_path_of output_folder j <-> i = j.
Proof.
  split; [|by intros ->]. unfold output_path_of, Path.join.
  change (Str.startswith "/" ("video_" +:+ ?s)) with false. cbv iota.
  intros Heq.
  assert (Hname : "video_" +:+ pretty i +:+ ".mp4" = "video_" +:+ pretty j +:+ ".mp4").
  { destruct (negb (Str.truthy output_folder) || Str.endswith "/" output_folder).
    - by apply (inj (String.app output_folder)) in Heq.
    - apply (inj (String.app output_folder)) in Heq.
      by apply (inj (String.app "/")) in Heq. }
  apply (inj (String.app "video_")) in Hname.
  apply append_inj_l in Hname. by apply (inj pretty).
Qed.


(** ** What the selection can raise *)

(** X5. The selection fails in two cases only: a negative count ("Sample
    larger than population or is negative", nothing drawn) and a positive
    count on an empty list ("list index out of range"). In every other
    case it returns [images_per_video] entries, all taken from the list,
    after as many draws. *)
Theorem X5_selection_outcomes (env : Env) (files_list : list string)
    (params : export_params) (w : world) :
  let k := images_per_video params in
  match select_files env files_list params w with
  | (Raise e, w') =>
      (k < 0 /\ e = "Sample larger than population or is negative" /\ w' = w)
      \/ (0 < k /\ files_list = [] /\ e = "list index out of range")
  | (Ok sel, w') =>
      0 <= k
      /\ (files_list = [] -> k = 0)
      /\ length sel = Z.to_nat k
      /\ (forall x, x ∈ sel -> x ∈ files_list)
      /\ w' = set_rng (rng w + Z.to_nat k) w
  end.
Proof.
  intros k. rewrite select_files_branch. fold k.
  destruct (Z.ltb_spec (Z.of_nat (length files_list)) k) as [Hfew|Hmany].
  - unfold random_choices.
    destruct files_list as [|f files_list].
    + (* no position to draw from *)
      destruct (Z.to_nat k) as [|n] eqn:Hn; [simpl in Hfew; lia|].
      cbn. right. repeat split. simpl in Hfew. lia.
    + rewrite choices_go_spec by done.
      split; [lia|]. split; [done|]. split; [by rewrite length_map, length_seq|].
      split; [|done].
      intros x (i & -> & _)%list_elem_of_fmap.
      apply list_elem_of_lookup_total_2, Nat.mod_upper_bound. simpl. lia.
  - unfold random_sample.
    destruct (Z.leb_spec 0 k) as [Hpos|Hneg]; cbn [andb negb].
    + replace (k <=? Z.of_nat (length files_list)) with true
        by (symmetry; apply Z.leb_le; lia).
      cbn [negb].
      destruct (sample_go_spec env (Z.to_nat k) files_list (length files_list) w)
        as (sel & Hsel & Hlen & Hsub); [lia | lia |].
      rewrite Hsel. rewrite take_ge in Hsub by lia.
      split; [done|]. split; [intros ->; simpl in Hmany; lia|].
      split; [done|]. split; [|done].
      intros x Hx. by eapply elem_of_submseteq.
    + left. by repeat split.
Qed.

(** ** Steps that leave a part of the world alone *)

Section Respects.

Context (R : world -> world -> Prop) (Hrefl : forall w, R w w)
        (Htrans : forall w1 w2 w3, R w1 w2 -> R w2 w3 -> R w1 w3).

Lemma respects_ret {A : Type} (a : A) : respects R (ret a).
Proof. intros w. apply Hrefl. Qed.

Lemma respects_raise {A : Type} (e : string) : respects R (@raise A e).
Proof. intros w. apply Hrefl. Qed.

Lemma respects_bind {A B : Type} (m : M A) (k : A -> M B) :
  respects R m -> (forall a, respects R (k a)) -> respects R (bind m k).
Proof.
  intros Hm Hk w. unfold bind. specialize (Hm w).
  destruct (m w) as [[a|e] w1]; [|done].
  eapply Htrans; [exact Hm | apply Hk].
Qed.

Lemma respects_get_world : respects R get_world.
Proof. intros w. apply Hrefl. Qed.

Lemma respects_isfile (p : string) : respects R (os_path_isfile p).
Proof. intros w. apply Hrefl. Qed.

Lemma respects_exists (p : string) : respects R (os_path_exists p).
Proof. intros w. apply Hrefl. Qed.

Lemma respects_modify (f : world -> world) :
  (forall w, R w (f w)) -> respects R (modify f).
Proof. intros Hf w. apply Hf. Qed.

Lemma respects_randbelow (env : Env) (n : nat) :
  (forall w r, R w (set_rng r w)) -> respects R (randbelow env n).
Proof. intros Hr w. apply Hr. Qed.

Lemma respects_audio_loop (a : aclip) (d : Q) : respects R (audio_loop a d).
Proof. unfold audio_loop. destruct (Qeq_bool _ _); [apply respects_raise | apply respects_ret]. Qed.

End Respects.

Lemma same_stdout_refl (w : world) : same_stdout w w.
Proof. done. Qed.

Lemma same_stdout_trans (w1 w2 w3 : world) :
  same_stdout w1 w2 -> same_stdout w2 w3 -> same_stdout w1 w3.
Proof. unfold same_stdout. congruence. Qed.

Lemma same_files_refl (w : world) : same_files w w.
Proof. done. Qed.

Lemma same_files_trans (w1 w2 w3 : world) :
  same_files w1 w2 -> same_files w2 w3 -> same_files w1 w3.
Proof. unfold same_files. intros [] []. split; congruence. Qed.

(** Splits a compound step; [refl] and [trans] are the two laws of the
    relation, [leaf] closes the steps that write to the world. *)
Ltac respects_with refl trans leaf :=
  repeat match goal with
  | |- respects _ (bind _ _) => apply (respects_bind _ trans); [|intros ?]
  | |- respects _ (ret _) => apply (respects_ret _ refl)
  | |- respects _ (raise _) => apply (respects_raise _ refl)
  | |- respects _ get_world => apply (respects_get_world _ refl)
  | |- respects _ (os_path_isfile _) => apply (respects_isfile _ refl)
  | |- respects _ (os_path_exists _) => apply (respects_exists _ refl)
  | |- respects _ (audio_loop _ _) => apply (respects_audio_loop _ refl)
  | |- respects _ (modify _) => apply respects_modify; intros ?; by hnf
  | |- respects _ (print _) => apply respects_modify; intros ?; by hnf
  | |- respects _ (randbelow _ _) => apply respects_randbelow; intros ? ?; by hnf
  | |- respects _ (match ?x with _ => _ end) => destruct x
  | |- respects _ (if ?b then _ else _) => destruct b
  | |- respects _ _ => solve [leaf]
  end.

Ltac quiet := respects_with same_stdout_refl same_stdout_trans ltac:(auto with quiet).
Ltac readonly := respects_with same_files_refl same_files_trans ltac:(auto with readonly).

Create HintDb quiet.
Create HintDb readonly.

Section Quiet.

Context (env : Env).

(** The calls on MoviePy print nothing. *)
Lemma quiet_ImageClip (path : string) : respects same_stdout (ImageClip env path).
Proof. unfold ImageClip. quiet. Qed.

Lemma quiet_VideoFileClip (path : string) : respects same_stdout (VideoFileClip env path).
Proof. unfold VideoFileClip. quiet. Qed.

Lemma quiet_get_or_create (file_path : string) (width height : Z) :
  respects same_stdout (get_or_create env file_path width height).
Proof.
  unfold get_or_create, produce, ImageClip, save_frame, backend_write. quiet.
Qed.

(** Loading a clip and drawing at random read the files and write none. *)
Lemma readonly_ImageClip (path : string) : respects same_files (ImageClip env path).
Proof. unfold ImageClip. readonly. Qed.

Lemma readonly_VideoFileClip (path : string) : respects same_files (VideoFileClip env path).
Proof. unfold VideoFileClip. readonly. Qed.

Lemma readonly_AudioFileClip (path : string) : respects same_files (AudioFileClip env path).
Proof. unfold AudioFileClip. readonly. Qed.

Lemma readonly_choices_go (population : list string) (k : nat) :
  respects same_files (choices_go env population k).
Proof. induction k as [|k IH]; cbn [choices_go]; readonly. Qed.

Lemma readonly_sample_go (k : nat) :
  forall (pool : list string) (m : nat), respects same_files (sample_go env pool m k).
Proof. induction k as [|k IH]; intros pool m; cbn [sample_go]; readonly. Qed.

End Quiet.

(** ** What one selected file contributes *)

Lemma bind_Ok_inv {A B : Type} (m : M A) (k : A -> M B) (w w' : world) (b : B) :
  bind m k w = (Ok b, w') ->
  exists a w1, m w = (Ok a, w1) /\ k a w1 = (Ok b, w').
Proof.
  unfold bind. destruct (m w) as [[a|e] w1]; [|discriminate]. by exists a, w1.
Qed.

Lemma ImageClip_Ok_inv (env : Env) (path : string) (w w' : world) (fr : frame) :
  ImageClip env path w = (Ok fr, w') ->
  exists iw ih,
    fs w !! resolve w path = Some (File (Image iw ih))
    /\ fr = {| frame_origin := ImageFile path; frame_fx := []; frame_w := iw; frame_h := ih |}
    /\ w' = log_call (Call_ImageClip path) w.
Proof.
  cbv [ImageClip bind modify get_world].
  change (fs (log_call (Call_ImageClip path) w)) with (fs w).
  change (resolve (log_call (Call_ImageClip path) w) path) with (resolve w path).
  destruct (fs w !! resolve w path) as [[[iw ih| | |]|]|]; try discriminate.
  intros [= <- <-]. by exists iw, ih.
Qed.

Lemma VideoFileClip_Ok_inv (env : Env) (path : string) (w w' : world) (c : clip) :
  VideoFileClip env path w = (Ok c, w') ->
  exists vw vh d,
    fs w !! resolve w path = Some (File (Video vw vh d))
    /\ c = {| clip_frame := {| frame_origin := VideoFile path; frame_fx := [];
                               frame_w := vw; frame_h := vh |};
              clip_duration := d |}
    /\ w' = log_call (Call_VideoFileClip path) w.
Proof.
  cbv [VideoFileClip bind modify get_world].
  change (fs (log_call (Call_VideoFileClip path) w)) with (fs w).
  change (resolve (log_call (Call_VideoFileClip path) w) path) with (resolve w path).
  destruct (fs w !! resolve w path) as [[[| vw vh d| |]|]|]; try discriminate.
  intros [= <- <-]. by exists vw, vh, d.
Qed.

Lemma get_or_create_Ok_path (env : Env) (file_path : string) (width height : Z)
    (w w' : world) (p : string) :
  get_or_create env file_path width height w = (Ok p, w') ->
  p = cache_file_of env file_path width height.
Proof.
  rewrite get_or_create_cases. cbv zeta.
  destruct (path_exists w _); [by intros [= <- _]|].
  destruct (fs w !! resolve w file_path) as [[[iw ih| | |]|]|]; try discriminate.
  destruct (save_frame_outcome env _) as [|msg [part|]]; try discriminate.
  by intros [= <- _].
Qed.

(** What a turn of the loop that returns has done. *)
Lemma process_file_Ok_inv (env : Env) (base_dir : string) (width height : Z)
    (per_image_time : Q) (clips clips' : list clip) (file_path : string) (w w' : world) :
  process_file env base_dir width height per_image_time clips file_path w = (Ok clips', w') ->
  let p := against base_dir file_path in
  if isfile w p then
    stdout w' = stdout w
    /\ exists c,
         clips' = clips ++ [c]
         /\ if Str.endswith_any [".mp4"; ".mov"; ".avi"] (Str.lower p) then
              exists vw vh d,
                fs w !! resolve w p = Some (File (Video vw vh d))
                /\ c = fit_video width height
                         {| clip_frame := {| frame_origin := VideoFile p; frame_fx := [];
                                             frame_w := vw; frame_h := vh |};
                            clip_duration := d |}
            else
              exists iw ih,
                fs w' !! resolve w' (cache_file_of env p width height)
                  = Some (File (Image iw ih))
                /\ c = set_duration per_image_time
                         {| frame_origin := ImageFile (cache_file_of env p width height);
                            frame_fx := []; frame_w := iw; frame_h := ih |}
  else clips' = clips /\ w' = log_line ("File not found: " +:+ p) w.
Proof.
  intros Hrun p. unfold process_file in Hrun. fold p in Hrun.
  rewrite bind_isfile in Hrun.
  destruct (isfile w p); cbn [negb] in Hrun.
  - fold video_suffixes.
    destruct (Str.endswith_any video_suffixes (Str.lower p)).
    + apply bind_Ok_inv in Hrun as (c & w1 & Hload & Hret).
      injection Hret as <- <-.
      pose proof (quiet_VideoFileClip env p w) as Hquiet. rewrite Hload in Hquiet.
      apply VideoFileClip_Ok_inv in Hload as (vw & vh & d & Hfile & -> & ->).
      split; [done|]. eexists. split; [done|]. by exists vw, vh, d.
    + apply bind_Ok_inv in Hrun as (processed & w1 & Hcache & Hrun).
      apply bind_Ok_inv in Hrun as (fr & w2 & Hload & Hret).
      injection Hret as <- <-.
      pose proof (quiet_get_or_create env p width height w) as Hq1. rewrite Hcache in Hq1.
      pose proof (get_or_create_Ok_path _ _ _ _ _ _ _ Hcache) as ->.
      apply ImageClip_Ok_inv in Hload as (iw & ih & Hfile & -> & ->).
      split; [exact Hq1|]. eexists. split; [done|]. by exists iw, ih.
  - rewrite bind_print in Hrun. by injection Hrun as <- <-.
Qed.

(** X9. A selected file that is there and is processed adds exactly one
    clip and prints nothing: for a video, the film stretched to the canvas
    with the duration of the film; for anything else, the frame found in
    the cache under the name of the file and the geometry, shown for
    [per_image_time]. A file that is not there adds no clip and prints one
    line. *)
Theorem X9_one_file_one_clip (env : Env) (base_dir : string) (width height : Z)
    (per_image_time : Q) (clips clips' : list clip) (file_path : string) (w w' : world) :
  process_file env base_dir width height per_image_time clips file_path w = (Ok clips', w') ->
  let p := against base_dir file_path in
  if isfile w p then
    stdout w' = stdout w
    /\ exists c,
         clips' = clips ++ [c]
         /\ if Str.endswith_any [".mp4"; ".mov"; ".avi"] (Str.lower p) then
              exists vw vh d,
                fs w !! resolve w p = Some (File (Video vw vh d))
                /\ frame_origin (clip_frame c) = VideoFile p
                /\ frame_w (clip_frame c) = width /\ frame_h (clip_frame c) = height
                /\ clip_duration c = d
            else
              exists iw ih,
                fs w' !! resolve w' (cache_file_of env p width height)
                  = Some (File (Image iw ih))
                /\ frame_origin (clip_frame c) = ImageFile (cache_file_of env p width height)
                /\ frame_fx (clip_frame c) = []
                /\ frame_w (clip_frame c) = iw /\ frame_h (clip_frame c) = ih
                /\ clip_duration c = per_image_time
  else clips' = clips /\ stdout w' = stdout w ++ ["File not found: " +:+ p]
       /\ fs w' = fs w /\ calls w' = calls w.
Proof.
  intros Hrun p. apply process_file_Ok_inv in Hrun. fold p in Hrun.
  destruct (isfile w p).
  - destruct Hrun as (Hout & c & -> & Hc). split; [done|]. exists c. split; [done|].
    destruct (Str.endswith_any _ _).
    + destruct Hc as (vw & vh & d & Hfile & ->). exists vw, vh, d.
      rewrite fit_video_is_resize_newsize. by repeat split.
    + destruct Hc as (iw & ih & Hfile & ->). exists iw, ih. by repeat split.
  - by destruct Hrun as [-> ->].
Qed.

(** [wide.png] out of the base directory: one clip of 2 seconds. *)
Lemma X9_one_file_one_clip_witness :
  exists c w',
    process_file Scenario.env "/app" 200 100 2 [] "wide.png" Scenario.start = (Ok [c], w')
    /\ clip_duration c = 2%Q
    /\ stdout w' = [].
Proof.
  pose (r := process_file Scenario.env "/app" 200 100 2 [] "wide.png" Scenario.start).
  assert (Hrun : process_file Scenario.env "/app" 200 100 2 [] "wide.png" Scenario.start
                 = (Ok [set_duration 2 (Scenario.still
                          (cache_file_of Scenario.env "/app/wide.png" 200 100))], r.2))
    by (vm_compute; reflexivity).
  pose proof (X9_one_file_one_clip _ _ _ _ _ _ _ _ _ _ Hrun) as Hone.
  change (isfile Scenario.start (against "/app" "wide.png")) with true in Hone.
  cbv zeta in Hone. destruct Hone as (Hout & _).
  eexists _, r.2. split; [exact Hrun|]. split; [reflexivity|]. exact Hout.
Defined.



(** ** The closing image *)

(** X7. The closing image gives a clip only when it is set, not blank and
    an existing file; the clip then lasts 3 seconds whatever the time per
    image, and shows the frame of the cache for that file. When the image is
    not considered nothing happens at all: no line is printed, no call is
    made. When it is considered and cannot be prepared the job fails. *)
Theorem X7_closing_clip (env : Env) (base_dir : string) (width height : Z)
    (closing_image : option string) (w : world) :
  match process_closing env base_dir width height closing_image w with
  | (Ok (Some c), w') =>
      closing_considered base_dir closing_image w = true
      /\ clip_duration c = 3%Q
      /\ frame_fx (clip_frame c) = []
      /\ (exists ci, closing_image = Some ci
                     /\ frame_origin (clip_frame c)
                        = ImageFile (cache_file_of env (against base_dir ci) width height))
      /\ stdout w' = stdout w
  | (Ok None, w') => closing_considered base_dir closing_image w = false /\ w' = w
  | (Raise e, w') => closing_considered base_dir closing_image w = true /\ stdout w' = stdout w
  end.
Proof.
  unfold process_closing, closing_considered.
  destruct closing_image as [ci|]; [|done].
  destruct (Str.truthy ci && negb (String.eqb (Str.strip ci) EmptyString)); [|done].
  rewrite bind_isfile. cbn [andb].
  destruct (isfile w (against base_dir ci)); [|done].
  pose proof (quiet_get_or_create env (against base_dir ci) width height w) as Hq1.
  unfold bind at 1.
  destruct (get_or_create env (against base_dir ci) width height w)
    as [[processed|e] w1] eqn:Hcache; [|done].
  apply get_or_create_Ok_path in Hcache as ->.
  pose proof (quiet_ImageClip env (cache_file_of env (against base_dir ci) width height) w1)
    as Hq2.
  unfold bind.
  destruct (ImageClip env _ w1) as [[fr|e] w2] eqn:Hload; cbn [snd] in *.
  - apply ImageClip_Ok_inv in Hload as (iw & ih & _ & -> & ->).
    repeat split; [by exists ci | by rewrite <- Hq1].
  - split; [done|]. unfold same_stdout in *. congruence.
Qed.

(** ** Assembling *)

Lemma Qsum_app (l1 l2 : list Q) : (Qsum (l1 ++ l2) == Qsum l1 + Qsum l2)%Q.
Proof.
  induction l1 as [|d l1 IH]; cbn [app]; rewrite ?Qsum_cons.
  - unfold Qsum at 2. cbn. ring.
  - rewrite IH. ring.
Qed.

Lemma concat_duration_hard (ds : list Q) : (concat_duration ds 0 == Qsum ds)%Q.
Proof. destruct ds as [|d ds]; [reflexivity|]. unfold concat_duration. ring. Qed.

Lemma vduration_singles (clips : list clip) :
  map vduration (map Single clips) = map clip_duration clips.
Proof. induction clips as [|c clips IH]; [done|]. cbn. by rewrite IH. Qed.

(** X8. With at least one clip the assembly never fails and touches
    nothing. Without crossfade the clips and then the closing clip are put
    end to end, and the result lasts the sum of their durations. With
    crossfade the closing clip is put behind the crossfaded body with a hard
    cut, not faded in: the result lasts the body plus the closing clip. *)
Theorem X8_final_clip (use_crossfade : bool) (fade : Q) (clips : list clip)
    (closing_clip : option clip) (w : world) :
  clips ≠ [] ->
  exists final_clip,
    build_final_clip use_crossfade fade clips closing_clip w = (Ok final_clip, w)
    /\ if use_crossfade then
         exists main_clip,
           crossfade_consecutive_clips clips fade = Some main_clip
           /\ final_clip = match closing_clip with
                           | Some closing => Concat [main_clip; Single closing] 0
                           | None => main_clip
                           end
           /\ (vduration final_clip
               == vduration main_clip + from_option clip_duration 0 closing_clip)%Q
       else
         final_clip = Concat (map Single (clips ++ option_list closing_clip)) 0
         /\ (vduration final_clip
             == Qsum (map clip_duration clips) + from_option clip_duration 0 closing_clip)%Q.
Proof.
  intros Hclips. unfold build_final_clip. destruct use_crossfade.
  - destruct clips as [|first rest]; [done|].
    assert (Hmain : exists main_clip,
              crossfade_consecutive_clips (first :: rest) fade = Some main_clip)
      by (destruct rest; by eexists).
    destruct Hmain as [main_clip Hmain]. rewrite Hmain.
    destruct closing_clip as [closing|].
    + eexists. split; [reflexivity|]. exists main_clip. split; [done|]. split; [done|].
      cbn [vduration map from_option]. unfold concat_duration. cbn. ring.
    + eexists. split; [reflexivity|]. exists main_clip. split; [done|]. split; [done|].
      cbn. ring.
  - exists (Concat (map Single (clips ++ option_list closing_clip)) 0).
    split; [|split].
    + destruct closing_clip; cbn [option_list]; by rewrite ?app_nil_r.
    + done.
    + cbn [vduration]. fold (map vduration).
      rewrite concat_duration_hard.
      destruct closing_clip as [closing|]; cbn [from_option option_list].
      * rewrite vduration_singles, map_app, Qsum_app.
        change (Qsum (map clip_duration (option_list (Some closing))))
          with (clip_duration closing + 0)%Q.
        ring.
      * rewrite app_nil_r, vduration_singles. ring.
Qed.

(** Three clips of 2 seconds and a closing clip, hard cuts: 9 seconds. *)
Lemma X8_final_clip_witness :
  exists final_clip,
    build_final_clip false 1
      [set_duration 2 (Scenario.still "a"); set_duration 2 (Scenario.still "b");
       set_duration 2 (Scenario.still "c")]
      (Some (set_duration 3 (Scenario.still "z"))) Scenario.start
      = (Ok final_clip, Scenario.start)
    /\ (vduration final_clip == 9)%Q.
Proof.
  destruct (X8_final_clip false 1
              [set_duration 2 (Scenario.still "a"); set_duration 2 (Scenario.still "b");
               set_duration 2 (Scenario.still "c")]
              (Some (set_duration 3 (Scenario.still "z"))) Scenario.start)
    as (final_clip & Hrun & _ & Hd).
  - discriminate.
  - exists final_clip. split; [exact Hrun|]. rewrite Hd. vm_compute. reflexivity.
Defined.

(** ** Entries of the cache *)

Lemma fit_image_size (width height : Z) (fr : frame) :
  frame_w (fit_image width height fr) = width
  /\ frame_h (fit_image width height fr) = height.
Proof.
  unfold fit_image. cbn [resize_height apply_fx frame_w frame_h].
  destruct (Z.ltb_spec width (Z.quot (frame_w fr * height) (frame_h fr))); [done|].
  destruct (Z.ltb_spec (Z.quot (frame_w fr * height) (frame_h fr)) width); [done|].
  cbn. split; [lia | done].
Qed.

Lemma get_or_create_Ok_present (env : Env) (file_path : string) (width height : Z)
    (w w' : world) (p : string) :
  get_or_create env file_path width height w = (Ok p, w') ->
  cwd w' = cwd w /\ is_Some (fs w' !! resolve w' p).
Proof.
  rewrite get_or_create_cases. cbv zeta.
  destruct (path_exists w _) eqn:Hhit.
  - intros [= <- <-]. split; [done|].
    apply path_exists_true in Hhit. by apply elem_of_dom.
  - destruct (fs w !! resolve w file_path) as [[[iw ih| | |]|]|]; try discriminate.
    destruct (save_frame_outcome env _) as [|msg [part|]]; try discriminate.
    intros [= <- <-]. split; [done|]. cbn.
    change (resolve (set_fs _ _) ?q) with (resolve w q).
    rewrite lookup_insert_eq. by eexists.
Qed.

(** X2. An entry that [get_or_create] adds to the cache is a picture of
    exactly the size of the canvas, made from the source picture by one
    load and one write; nothing else in the file system changes. *)
Theorem X2_new_cache_entry (env : Env) (file_path : string) (width height : Z)
    (w w' : world) (p : string) :
  get_or_create env file_path width height w = (Ok p, w') ->
  path_exists w p = false ->
  exists iw ih,
    fs w !! resolve w file_path = Some (File (Image iw ih))
    /\ fs w' = <[resolve w p := File (Image width height)]> (fs w)
    /\ new_calls w w'
       = [Call_ImageClip file_path;
          Call_save_frame (produced_frame file_path width height iw ih) p].
Proof.
  intros Hrun Hmiss.
  pose proof (get_or_create_Ok_path _ _ _ _ _ _ _ Hrun) as ->.
  rewrite get_or_create_cases in Hrun. cbv zeta in Hrun. rewrite Hmiss in Hrun.
  destruct (fs w !! resolve w file_path) as [[[iw ih| | |]|]|]; try discriminate.
  destruct (save_frame_outcome env _) as [|msg [part|]]; try discriminate.
  injection Hrun as <-. exists iw, ih. split; [done|].
  destruct (fit_image_size width height
              {| frame_origin := ImageFile file_path; frame_fx := [];
                 frame_w := iw; frame_h := ih |}) as [Hw Hh].
  unfold produced_frame. rewrite Hw, Hh. split; [done|].
  apply new_calls_app. cbn. by rewrite <- app_assoc.
Qed.

(** The frame of the 400x100 picture for a 200x100 canvas is 200x100. *)
Lemma X2_new_cache_entry_witness :
  exists p w',
    get_or_create Scenario.env "/app/wide.png" 200 100 Scenario.start = (Ok p, w')
    /\ fs w' !! p = Some (File (Image 200 100)).
Proof.
  pose (r := get_or_create Scenario.env "/app/wide.png" 200 100 Scenario.start).
  assert (Hrun : get_or_create Scenario.env "/app/wide.png" 200 100 Scenario.start
                 = (Ok (cache_file_of Scenario.env "/app/wide.png" 200 100), r.2))
    by (vm_compute; reflexivity).
  destruct (X2_new_cache_entry _ _ _ _ _ _ _ Hrun) as (iw & ih & _ & Hfs & _).
  - vm_compute. reflexivity.
  - eexists _, r.2. split; [exact Hrun|]. rewrite Hfs. apply lookup_insert_eq.
Defined.

(** X10. The cache never looks at the source again: once the frame of a
    source at a geometry is in the cache, [get_or_create] returns it without
    a single call, whatever has become of the source file since (changed,
    replaced, removed), as long as the cache file is still there. *)
Theorem X10_cache_ignores_source_changes (env : Env) (file_path : string)
    (width height : Z) (w w1 w2 : world) (p : string) :
  get_or_create env file_path width height w = (Ok p, w1) ->
  cwd w2 = cwd w1 ->
  fs w2 !! resolve w1 p = fs w1 !! resolve w1 p ->
  get_or_create env file_path width height w2 = (Ok p, w2).
Proof.
  intros Hrun Hcwd Hsame.
  pose proof (get_or_create_Ok_path _ _ _ _ _ _ _ Hrun) as ->.
  destruct (get_or_create_Ok_present _ _ _ _ _ _ _ Hrun) as [_ Hthere].
  apply get_or_create_hit. unfold path_exists. apply bool_decide_eq_true.
  unfold resolve in *. rewrite Hcwd. by rewrite Hsame.
Qed.

(** The picture is replaced by junk after its frame was cached: the frame is
    still served. *)
Lemma X10_cache_ignores_source_changes_witness :
  exists p w1,
    get_or_create Scenario.env "/app/wide.png" 200 100 Scenario.start = (Ok p, w1)
    /\ let w2 := set_fs (insert "/app/wide.png" (File Junk)) w1 in
       get_or_create Scenario.env "/app/wide.png" 200 100 w2 = (Ok p, w2).
Proof.
  pose (r := get_or_create Scenario.env "/app/wide.png" 200 100 Scenario.start).
  assert (Hrun : get_or_create Scenario.env "/app/wide.png" 200 100 Scenario.start
                 = (Ok (cache_file_of Scenario.env "/app/wide.png" 200 100), r.2))
    by (vm_compute; reflexivity).
  eexists _, r.2. split; [exact Hrun|]. intros w2.
  apply (X10_cache_ignores_source_changes _ _ _ _ _ _ _ _ Hrun).
  - reflexivity.
  - vm_compute. reflexivity.
Defined.

(** ** Files that are there and cannot be read *)

(** X11. A selected file that exists but does not decode is not skipped:
    the loop stops on it with the message of the decoder, and none of the
    files behind it is looked at. (For a picture this is so when its frame
    is not in the cache yet.) *)
Theorem X11_unreadable_file_stops_the_loop (env : Env) (base_dir : string)
    (width height : Z) (per_image_time : Q) (clips : list clip)
    (file_path : string) (rest : list string) (w : world) :
  let p := against base_dir file_path in
  fs w !! resolve w p = Some (File Junk) ->
  Str.endswith_any [".mp4"; ".mov"; ".avi"] (Str.lower p) = true
  \/ path_exists w (cache_file_of env p width height) = false ->
  exists w',
    process_files env base_dir width height per_image_time clips (file_path :: rest) w
      = (Raise (decode_error env p), w')
    /\ fs w' = fs w
    /\ stdout w' = stdout w
    /\ new_calls w w'
       = [if Str.endswith_any [".mp4"; ".mov"; ".avi"] (Str.lower p)
          then Call_VideoFileClip p else Call_ImageClip p].
Proof.
  intros p Hjunk Hcase. cbn [process_files]. unfold bind at 1, process_file. fold p.
  rewrite bind_isfile. unfold isfile. rewrite Hjunk. cbn [negb].
  fold video_suffixes in Hcase |- *.
  destruct (Str.endswith_any video_suffixes (Str.lower p)).
  - cbv [bind VideoFileClip modify get_world].
    change (fs (log_call (Call_VideoFileClip p) w)) with (fs w).
    change (resolve (log_call (Call_VideoFileClip p) w) p) with (resolve w p).
    rewrite Hjunk. eexists. split; [reflexivity|]. repeat split.
    apply new_calls_app. done.
  - destruct Hcase as [|Hmiss]; [done|].
    unfold bind at 1. rewrite get_or_create_cases. cbv zeta. rewrite Hmiss, Hjunk.
    eexists. split; [reflexivity|]. repeat split. by apply new_calls_app.
Qed.

(** A text file with the name of a picture, between two good pictures. *)
Lemma X11_unreadable_file_stops_the_loop_witness :
  let w := set_fs (insert "/app/notes.png" (File Junk)) Scenario.start in
  exists w',
    process_files Scenario.env "/app" 200 100 2 [] ["notes.png"; "wide.png"] w
      = (Raise "cannot decode /app/notes.png", w')
    /\ new_calls w w' = [Call_ImageClip "/app/notes.png"].
Proof.
  intros w.
  destruct (X11_unreadable_file_stops_the_loop Scenario.env "/app" 200 100 2 []
              "notes.png" ["wide.png"] w) as (w' & Hrun & _ & _ & Hcalls).
  - vm_compute. reflexivity.
  - right. vm_compute. reflexivity.
  - exists w'. split; [exact Hrun | exact Hcalls].
Defined.

(** ** The output of a job *)

Lemma write_videofile_Ok_inv (env : Env) (m : movie) (path : string) (w w' : world) (u : unit) :
  write_videofile env m path w = (Ok u, w') ->
  write_videofile_outcome env path = Written
  /\ w' = set_fs (insert (resolve w path)
                    (File (Video (vwidth (movie_video m)) (vheight (movie_video m))
                                 (vduration (movie_video m)))))
            (log_call (Call_write_videofile m path) w).
Proof.
  cbv [write_videofile backend_write bind modify get_world].
  destruct (write_videofile_outcome env path) as [|msg [part|]]; try discriminate.
  by intros [= _ <-].
Qed.

Lemma run_body_Ok_inv (env : Env) (base_dir : string) (files_list : list string)
    (params : export_params) (video_idx : Z) (w w' : world) (u : unit) :
  run_body env base_dir files_list params video_idx w = (Ok u, w') ->
  exists m w5,
    write_videofile env m (output_path_of (output_folder params) video_idx) w5 = (Ok u, w').
Proof.
  unfold run_body. intros Hrun.
  apply bind_Ok_inv in Hrun as (sample_files & w1 & _ & Hrun).
  apply bind_Ok_inv in Hrun as (clips & w2 & _ & Hrun).
  apply bind_Ok_inv in Hrun as (closing_clip & w3 & _ & Hrun).
  destruct clips as [|c clips]; [discriminate|].
  apply bind_Ok_inv in Hrun as (final_clip & w4 & _ & Hrun).
  apply bind_Ok_inv in Hrun as (m & w5 & _ & Hrun).
  by exists m, w5.
Qed.

(** X12. A job that reports success has written its video: the last call it
    made is [write_videofile] on [video_<index>.mp4] in the output folder,
    the call did not raise, and the file is there, as large and as long as
    the final clip. *)
Theorem X12_success_means_written (env : Env) (base_dir : string)
    (files_list : list string) (params : export_params) (video_idx : Z) (w w' : world) :
  run env base_dir files_list params video_idx w = ([Progress video_idx; Finished], w') ->
  let output_path := output_path_of (output_folder params) video_idx in
  exists m,
    last (calls w') = Some (Call_write_videofile m output_path)
    /\ write_videofile_outcome env output_path = Written
    /\ fs w' !! resolve w' output_path
       = Some (File (Video (vwidth (movie_video m)) (vheight (movie_video m))
                           (vduration (movie_video m)))).
Proof.
  intros Hrun output_path. unfold run in Hrun.
  destruct (run_body env base_dir files_list params video_idx w) as [[u|e] w1] eqn:Hbody;
    [|discriminate].
  injection Hrun as <-.
  apply run_body_Ok_inv in Hbody as (m & w5 & Hwrite). fold output_path in Hwrite.
  apply write_videofile_Ok_inv in Hwrite as [Hout ->].
  exists m. split; [|split; [done|]].
  - cbn. by rewrite last_snoc.
  - cbn. change (resolve (set_fs _ _) ?q) with (resolve w5 q). apply lookup_insert_eq.
Qed.

(** The first job of the scenario writes [/out/video_1.mp4]. *)
Lemma X12_success_means_written_witness :
  exists w' m,
    run Scenario.env "/app" ["wide.png"; "tall.png"; "film.MP4"] Scenario.params 1
      Scenario.start = ([Progress 1; Finished], w')
    /\ last (calls w') = Some (Call_write_videofile m "/out/video_1.mp4")
    /\ is_Some (fs w' !! "/out/video_1.mp4").
Proof.
  pose (r := run Scenario.env "/app" ["wide.png"; "tall.png"; "film.MP4"] Scenario.params 1
               Scenario.start).
  assert (Hrun : run Scenario.env "/app" ["wide.png"; "tall.png"; "film.MP4"]
                   Scenario.params 1 Scenario.start = ([Progress 1; Finished], r.2))
    by (vm_compute; reflexivity).
  destruct (X12_success_means_written _ _ _ _ _ _ _ Hrun) as (m & Hlast & _ & Hfile).
  exists r.2, m. split; [exact Hrun|]. split; [exact Hlast|].
  eexists. exact Hfile.
Defined.

(** ** What a batch leaves alone *)

Create HintDb untouched.

Section Untouched.

Context (env : Env) (out : world -> string -> Prop)
        (Hout : forall w w' p, cwd w' = cwd w -> out w p -> out w' p).

Lemma untouched_refl (w : world) : untouched_except out w w.
Proof. by split. Qed.

Lemma untouched_trans (w1 w2 w3 : world) :
  untouched_except out w1 w2 -> untouched_except out w2 w3 -> untouched_except out w1 w3.
Proof.
  intros [Hc1 H1] [Hc2 H2]. split; [congruence|].
  intros p n Hp Hnot. apply H2; [by apply H1|].
  intros Hin. apply Hnot. apply (Hout w2 w1); [congruence | done].
Qed.

Lemma untouched_of_same_files {A : Type} (m : M A) :
  respects same_files m -> respects (untouched_except out) m.
Proof. intros Hm w. destruct (Hm w) as [Hfs Hcwd]. split; [done|]. intros. by rewrite Hfs. Qed.

(** The cache is only ever written where there was nothing. *)
Lemma untouched_get_or_create (file_path : string) (width height : Z) :
  respects (untouched_except out) (get_or_create env file_path width height).
Proof.
  intros w. rewrite get_or_create_cases. cbv zeta.
  destruct (path_exists w _) eqn:Hhit; [apply untouched_refl|].
  apply path_exists_false in Hhit.
  assert (Hfresh : forall c w0, fs w0 = fs w -> cwd w0 = cwd w ->
            untouched_except out w
              (set_fs (insert (resolve w (cache_file_of env file_path width height)) (File c))
                 w0)).
  { intros c w0 Hfs Hcwd. split; [done|]. intros p n Hp _. cbn. rewrite Hfs.
    rewrite lookup_insert_ne; [done|]. intros <-. congruence. }
  destruct (fs w !! resolve w file_path) as [[[iw ih| | |]|]|]; try by split.
  destruct (save_frame_outcome env _) as [|msg [part|]]; [by apply Hfresh..|by split].
Qed.


Hint Resolve untouched_get_or_create : untouched.
Hint Extern 1 (respects (untouched_except _) (ImageClip _ _)) =>
  (apply untouched_of_same_files, readonly_ImageClip) : untouched.
Hint Extern 1 (respects (untouched_except _) (VideoFileClip _ _)) =>
  (apply untouched_of_same_files, readonly_VideoFileClip) : untouched.
Hint Extern 1 (respects (untouched_except _) (AudioFileClip _ _)) =>
  (apply untouched_of_same_files, readonly_AudioFileClip) : untouched.
Hint Extern 1 (respects (untouched_except _) (choices_go _ _ _)) =>
  (apply untouched_of_same_files, readonly_choices_go) : untouched.
Hint Extern 1 (respects (untouched_except _) (sample_go _ _ _ _)) =>
  (apply untouched_of_same_files, readonly_sample_go) : untouched.

Ltac untouched :=
  respects_with untouched_refl untouched_trans ltac:(auto with untouched).

Lemma untouched_process_files (base_dir : string) (width height : Z) (t : Q)
    (sample_files : list string) :
  forall clips,
    respects (untouched_except out)
      (process_files env base_dir width height t clips sample_files).
Proof.
  induction sample_files as [|f rest IH]; intros clips; cbn [process_files];
    unfold process_file; untouched.
Qed.

Lemma untouched_process_closing (base_dir : string) (width height : Z)
    (closing_image : option string) :
  respects (untouched_except out) (process_closing env base_dir width height closing_image).
Proof. unfold process_closing. untouched. Qed.

Lemma untouched_build_final_clip (use_crossfade : bool) (fade : Q) (clips : list clip)
    (closing_clip : option clip) :
  respects (untouched_except out) (build_final_clip use_crossfade fade clips closing_clip).
Proof. unfold build_final_clip. untouched. Qed.

Hint Resolve untouched_process_files untouched_process_closing untouched_build_final_clip
  : untouched.


End Untouched.






(** X14. From a fresh process, and as long as a write of a frame that fails
    leaves its file behind, a batch calls [save_frame] at most once on each
    cache file, however many of its jobs ask for that frame. *)
Theorem X14_frames_written_once (env : Env) (base_dir : string) (files_list : list string)
    (params : export_params) (w : world) (p : string) :
  save_leaves_a_file env ->
  calls w = [] ->
  (productions p (calls (start_export env base_dir files_list params w).2) <= 1)%nat.
Proof.
  intros Hsave Hfresh. unfold start_export. apply launch_cache_sound; [done|].
  intros q. rewrite Hfresh. cbn. split; [lia | discriminate].
Qed.

(** Four jobs that share two pictures: the frame of [wide.png] is written
    at most once. *)
Lemma X14_frames_written_once_witness :
  (productions (cache_file_of Scenario.env "/app/wide.png" 200 100)
     (calls (start_export Scenario.env "/app" ["wide.png"; "tall.png"]
               Scenario.params Scenario.start).2) <= 1)%nat.
Proof.
  apply X14_frames_written_once.
  - intros q msg. discriminate.
  - reflexivity.
Defined.

(** ** Counting the jobs that have ended *)

Lemma deliver_below (total_tasks : Z) (signals : list signal) :
  forall (tasks_finished : Z) (announced : nat),
    tasks_finished + Z.of_nat (finished_count signals) < total_tasks ->
    deliver total_tasks signals tasks_finished announced
      = (tasks_finished + Z.of_nat (finished_count signals), announced).
Proof.
  induction signals as [|s signals IH]; intros tf ann Hlt.
  - cbn. f_equal. lia.
  - destruct s; cbn [deliver]; try (apply IH; exact Hlt).
    unfold finished_count in *. cbn [List.filter length] in *.
    unfold on_task_finished.
    destruct (Z.leb_spec total_tasks (tf + 1)) as [Hle|Hgt]; [lia|].
    rewrite IH by lia. f_equal. lia.
Qed.

Lemma deliver_no_finished (total_tasks : Z) (signals : list signal) :
  forall (tasks_finished : Z) (announced : nat),
    finished_count signals = 0%nat ->
    deliver total_tasks signals tasks_finished announced = (tasks_finished, announced).
Proof.
  induction signals as [|s signals IH]; intros tf ann Hnone; [done|].
  unfold finished_count in *.
  destruct s; cbn [deliver List.filter] in *; try (by apply IH).
  cbn in Hnone. lia.
Qed.

Lemma finished_count_cons (s : signal) (signals : list signal) :
  finished_count (s :: signals)
  = ((match s with Finished => 1 | _ => 0 end) + finished_count signals)%nat.
Proof. unfold finished_count. by destruct s. Qed.

Lemma finished_count_app (l1 l2 : list signal) :
  finished_count (l1 ++ l2) = (finished_count l1 + finished_count l2)%nat.
Proof. unfold finished_count. by rewrite List.filter_app, length_app. Qed.

Lemma deliver_reaching (total_tasks : Z) (signals : list signal) :
  forall (tasks_finished : Z) (announced : nat),
    (1 <= finished_count signals)%nat ->
    tasks_finished + Z.of_nat (finished_count signals) = total_tasks ->
    deliver total_tasks signals tasks_finished announced = (total_tasks, S announced).
Proof.
  induction signals as [|s signals IH]; intros tf ann Hone Hsum.
  - cbn in Hone. lia.
  - rewrite finished_count_cons in Hone, Hsum.
    destruct s; cbn [deliver]; try (apply IH; [exact Hone | exact Hsum]).
    unfold on_task_finished.
    destruct (Z.leb_spec total_tasks (tf + 1)) as [Hle|Hgt].
    + (* this was the last job: the signals behind hold no [finished] *)
      assert (Hnone : finished_count signals = 0%nat) by lia.
      rewrite (deliver_no_finished _ _ _ _ Hnone). f_equal. lia.
    + apply IH; lia.
Qed.

Lemma outcomes_hold_no_finished (outcomes : list signal) :
  Forall (fun o => o ≠ Finished) outcomes ->
  finished_count (flat_map (fun o => [o; Finished]) outcomes) = length outcomes.
Proof.
  induction 1 as [|o outcomes Ho _ IH]; [done|].
  cbn [flat_map app length]. rewrite !finished_count_cons, IH. by destruct o.
Qed.

Lemma finished_count_perm (l1 l2 : list signal) :
  l1 ≡ₚ l2 -> finished_count l1 = finished_count l2.
Proof.
  induction 1 as [|s l1 l2 _ IH|s1 s2 l|l1 l2 l3 _ IH1 _ IH2];
    rewrite ?finished_count_cons; [done|by rewrite IH|lia|congruence].
Qed.

Lemma batch_finished_count (env : Env) (base_dir : string) (files_list : list string)
    (params : export_params) (w : world) :
  finished_count (start_export env base_dir files_list params w).1
  = Z.to_nat (output_videos params).
Proof.
  destruct (launch_signals env base_dir files_list params
              (Z.to_nat (output_videos params)) 1 w) as (outcomes & Hsig & Hlen & Hall).
  unfold start_export. rewrite Hsig, outcomes_hold_no_finished; [done|].
  apply Forall_lookup. intros i o Hi Hfin. subst o.
  destruct (Hall i Finished Hi) as [|[e ?]]; discriminate.
Qed.

(** X15. Whatever the order in which the signals of a batch of N >= 1 jobs
    reach the window, its counter ends at N and the end of the export is
    announced exactly once, by the last [finished] signal: as long as one
    [finished] is still to come, nothing has been announced. *)
Theorem X15_end_announced_once (env : Env) (base_dir : string) (files_list : list string)
    (params : export_params) (w : world) (arrived : list signal) :
  1 <= output_videos params ->
  arrived ≡ₚ (start_export env base_dir files_list params w).1 ->
  deliver (output_videos params) arrived 0 0 = (output_videos params, 1%nat)
  /\ forall earlier later,
       arrived = earlier ++ Finished :: later ->
       deliver (output_videos params) earlier 0 0
         = (Z.of_nat (finished_count earlier), 0%nat).
Proof.
  intros Hjobs Harrived.
  assert (Hcount : finished_count arrived = Z.to_nat (output_videos params)).
  { rewrite (finished_count_perm _ _ Harrived). apply batch_finished_count. }
  split.
  - apply deliver_reaching; lia.
  - intros earlier later ->.
    rewrite finished_count_app, finished_count_cons in Hcount.
    rewrite deliver_below; [done | lia].
Qed.

(** The four jobs of the scenario, their signals delivered as emitted. *)
Lemma X15_end_announced_once_witness :
  deliver 4 (start_export Scenario.env "/app" ["wide.png"; "tall.png"; "film.MP4"]
               Scenario.params Scenario.start).1 0 0 = (4, 1%nat).
Proof.
  apply (X15_end_announced_once Scenario.env "/app" ["wide.png"; "tall.png"; "film.MP4"]
           Scenario.params Scenario.start).
  - simpl. lia.
  - reflexivity.
Defined.

(** ** With which texts a job can fail *)

Section Raises.

Context (E : string -> Prop).

Lemma raises_ret {A : Type} (a : A) : raises_only E (ret a).
Proof. intros w e w' Hrun. discriminate. Qed.

Lemma raises_raise {A : Type} (e : string) : E e -> raises_only E (@raise A e).
Proof. intros He w e' w' [= <- _]. exact He. Qed.

Lemma raises_bind {A B : Type} (m : M A) (k : A -> M B) :
  raises_only E m -> (forall a, raises_only E (k a)) -> raises_only E (bind m k).
Proof.
  intros Hm Hk w e w'. unfold bind.
  destruct (m w) as [[a|e0] w1] eqn:Hrun.
  - apply Hk.
  - intros [= <- _]. by eapply Hm.
Qed.

Lemma raises_get_world : raises_only E get_world.
Proof. intros w e w' Hrun. discriminate. Qed.

Lemma raises_isfile (p : string) : raises_only E (os_path_isfile p).
Proof. intros w e w' Hrun. discriminate. Qed.

Lemma raises_exists (p : string) : raises_only E (os_path_exists p).
Proof. intros w e w' Hrun. discriminate. Qed.

Lemma raises_modify (f : world -> world) : raises_only E (modify f).
Proof. intros w e w' Hrun. discriminate. Qed.

Lemma raises_randbelow (env : Env) (n : nat) : raises_only E (randbelow env n).
Proof. intros w e w' Hrun. discriminate. Qed.

End Raises.

(** Picks the kind of failure. *)
Ltac failure_kind :=
  unfold job_failure;
  first [ by left
        | by (right; left)
        | by (right; right; left; eexists)
        | by (right; right; right; left; eexists _, _; eassumption)
        | by (right; right; right; right; left)
        | by (right; right; right; right; right; left)
        | by (right; right; right; right; right; right; eexists; eassumption) ].

Create HintDb raises.

Ltac raises_auto :=
  repeat match goal with
  | |- raises_only _ (bind _ _) => apply raises_bind; [|intros ?]
  | |- raises_only _ (ret _) => apply raises_ret
  | |- raises_only _ (raise _) => apply raises_raise; failure_kind
  | |- raises_only _ get_world => apply raises_get_world
  | |- raises_only _ (os_path_isfile _) => apply raises_isfile
  | |- raises_only _ (os_path_exists _) => apply raises_exists
  | |- raises_only _ (modify _) => apply raises_modify
  | |- raises_only _ (print _) => apply raises_modify
  | |- raises_only _ (randbelow _ _) => apply raises_randbelow
  | |- raises_only _ (match ?x with _ => _ end) => destruct x eqn:?
  | |- raises_only _ (if ?b then _ else _) => destruct b eqn:?
  | |- raises_only _ _ => solve [auto with raises]
  end.

Section Failures.

Context (env : Env) (output_path : string).

Lemma raises_ImageClip (path : string) :
  raises_only (job_failure env output_path) (ImageClip env path).
Proof. unfold ImageClip. raises_auto. Qed.

Lemma raises_VideoFileClip (path : string) :
  raises_only (job_failure env output_path) (VideoFileClip env path).
Proof. unfold VideoFileClip. raises_auto. Qed.

Lemma raises_AudioFileClip (path : string) :
  raises_only (job_failure env output_path) (AudioFileClip env path).
Proof. unfold AudioFileClip. raises_auto. Qed.

Lemma raises_save_frame (fr : frame) (path : string) :
  raises_only (job_failure env output_path) (save_frame env fr path).
Proof. unfold save_frame, backend_write. raises_auto. Qed.

Lemma raises_write_videofile (m : movie) :
  raises_only (job_failure env output_path) (write_videofile env m output_path).
Proof. unfold write_videofile, backend_write. raises_auto. Qed.

Lemma raises_audio_loop (a : aclip) (d : Q) :
  raises_only (job_failure env output_path) (audio_loop a d).
Proof. unfold audio_loop. raises_auto. Qed.

Hint Resolve raises_ImageClip raises_VideoFileClip raises_AudioFileClip raises_save_frame
  raises_write_videofile raises_audio_loop : raises.

Lemma raises_choices_go (population : list string) (k : nat) :
  raises_only (job_failure env output_path) (choices_go env population k).
Proof. induction k as [|k IH]; cbn [choices_go]; raises_auto. Qed.

Lemma raises_sample_go (k : nat) :
  forall (pool : list string) (m : nat),
    raises_only (job_failure env output_path) (sample_go env pool m k).
Proof. induction k as [|k IH]; intros pool m; cbn [sample_go]; raises_auto. Qed.

Lemma raises_get_or_create (file_path : string) (width height : Z) :
  raises_only (job_failure env output_path) (get_or_create env file_path width height).
Proof. unfold get_or_create, produce. raises_auto. Qed.

Hint Resolve raises_choices_go raises_sample_go raises_get_or_create : raises.

Lemma raises_process_files (base_dir : string) (width height : Z) (t : Q)
    (sample_files : list string) :
  forall clips,
    raises_only (job_failure env output_path)
      (process_files env base_dir width height t clips sample_files).
Proof.
  induction sample_files as [|f rest IH]; intros clips; cbn [process_files];
    unfold process_file; raises_auto.
Qed.

Lemma raises_process_closing (base_dir : string) (width height : Z)
    (closing_image : option string) :
  raises_only (job_failure env output_path)
    (process_closing env base_dir width height closing_image).
Proof. unfold process_closing. raises_auto. Qed.

(** With a clip in the list the assembly raises nothing at all. *)
Lemma raises_build_final_clip (use_crossfade : bool) (fade : Q) (c : clip)
    (clips : list clip) (closing_clip : option clip) :
  raises_only (job_failure env output_path)
    (build_final_clip use_crossfade fade (c :: clips) closing_clip).
Proof.
  intros w e w'. unfold build_final_clip.
  destruct use_crossfade; [|discriminate].
  destruct clips, closing_clip; discriminate.
Qed.

Hint Resolve raises_process_files raises_process_closing raises_build_final_clip : raises.


End Failures.



(** ** The window *)

Lemma resolution_of_cases (name : string) :
  (exists p, dict_get name output_ratio_map = Some p
             /\ Py.int <$> Py.split "x" (resolution p)
                = [Some (resolution_of name).1; Some (resolution_of name).2]
             /\ resolution_of name
                ∈ [(1080, 1080); (1080, 1920); (1920, 1080); (1200, 628); (800, 320)])
  \/ (dict_get name output_ratio_map = None /\ resolution_of name = (1920, 1080)).
Proof.
  unfold resolution_of, output_ratio_map. cbn [dict_get].
  repeat (destruct (String.eqb _ name);
          [left; eexists; split; [reflexivity|]; split; [reflexivity|];
           vm_compute; set_solver|]).
  by right.
Qed.

Lemma resolution_of_positive (name : string) :
  0 < (resolution_of name).1 /\ 0 < (resolution_of name).2.
Proof.
  destruct (resolution_of_cases name) as [(p & _ & _ & Hin)|[_ Hdefault]].
  - rewrite !elem_of_cons in Hin. destruct (resolution_of name) as [wd ht]. cbn.
    destruct Hin as [|[|[|[|[|Hin]]]]]; simplify_eq; try lia.
    by apply elem_of_nil in Hin.
  - rewrite Hdefault. cbn. lia.
Qed.

(** X17. Whatever the text of the ratio box, the canvas has a positive
    width and a positive height. For a name of the map it is the resolution
    written in the map, which always splits at the "x" into two integers,
    so that the fallback of the [except] clause is never needed for it; for
    any other name it is 1920 x 1080. *)
Theorem X17_canvas_of_a_ratio (name : string) :
  0 < (resolution_of name).1
  /\ 0 < (resolution_of name).2
  /\ match dict_get name output_ratio_map with
     | Some p =>
         Py.int <$> Py.split "x" (resolution p)
         = [Some (resolution_of name).1; Some (resolution_of name).2]
     | None => resolution_of name = (1920, 1080)
     end.
Proof.
  destruct (resolution_of_positive name) as [Hw Hh].
  split; [done|]. split; [done|].
  destruct (resolution_of_cases name) as [(p & Hp & Hsplit & _)|[Hnone Hdefault]].
  - by rewrite Hp.
  - by rewrite Hnone.
Qed.

Lemma select_files_succeeds (env : Env) (files_list : list string) (params : export_params)
    (w : world) :
  0 <= images_per_video params ->
  files_list ≠ [] ->
  exists sel,
    select_files env files_list params w
      = (Ok sel, set_rng (rng w + Z.to_nat (images_per_video params)) w)
    /\ length sel = Z.to_nat (images_per_video params).
Proof.
  intros Hk Hne. rewrite select_files_branch.
  destruct (Z.ltb_spec (Z.of_nat (length files_list)) (images_per_video params)).
  - unfold random_choices. rewrite choices_go_spec by done.
    eexists. split; [reflexivity|]. by rewrite length_map, length_seq.
  - unfold random_sample.
    replace ((0 <=? images_per_video params)
             && (images_per_video params <=? Z.of_nat (length files_list)))
      with true by (symmetry; apply andb_true_iff; split; apply Z.leb_le; lia).
    cbn [negb].
    destruct (sample_go_spec env (Z.to_nat (images_per_video params)) files_list
                (length files_list) w) as (sel & Hsel & Hlen & _); [lia | lia |].
    by exists sel.
Qed.

Lemma export_params_of_fields (r : readings) :
  images_per_video (export_params_of r) = image_spinbox_value r
  /\ output_videos (export_params_of r) = output_videos_spinbox_value r
  /\ width (export_params_of r) = (resolution_of (output_ratio_text r)).1
  /\ height (export_params_of r) = (resolution_of (output_ratio_text r)).2
  /\ per_image_time (export_params_of r) = inject_Z (time_slider_value r)
  /\ fade_duration (export_params_of r) = 1%Q
  /\ crossfade (export_params_of r) = true
  /\ output_folder (export_params_of r) = output_folder_text r.
Proof. unfold export_params_of. by destruct (resolution_of (output_ratio_text r)). Qed.

(** X16. When [start_export] gets as far as launching jobs, the jobs can
    work: the list of files is not empty and is the list of the files of
    the chosen category, the output folder is a directory, the canvas has a
    positive size, crossfade is on with a fade of one second, which is not
    longer than the time per image, and, the spin boxes being within their
    ranges, the selection of every job succeeds. *)
Theorem X16_launched_jobs_can_select (env : Env) (self_df : option DataFrame)
    (r : readings) (w0 w : world) (files_list : list string) (params : export_params) :
  export_plan self_df r w0 = inr (files_list, params) ->
  within_ranges r ->
  files_list ≠ []
  /\ (exists df, self_df = Some df /\ files_list = files_of_category (category_text r) df)
  /\ isdir w0 (output_folder params) = true
  /\ 0 < width params /\ 0 < height params
  /\ crossfade params = true
  /\ (fade_duration params <= per_image_time params)%Q
  /\ 1 <= output_videos params <= 100
  /\ exists sel,
       select_files env files_list params w
         = (Ok sel, set_rng (rng w + Z.to_nat (images_per_video params)) w)
       /\ length sel = Z.to_nat (images_per_video params).
Proof.
  unfold export_plan. intros Hplan (Himg & Hvid & Htime).
  destruct self_df as [df|]; [|discriminate].
  destruct (df_empty df); [discriminate|].
  destruct (Str.truthy (output_folder_text r) && isdir w0 (output_folder_text r)) eqn:Hdir;
    [|discriminate]. cbn [negb] in Hplan.
  destruct (files_of_category (category_text r) df) as [|f files] eqn:Hfiles; [discriminate|].
  injection Hplan as <- <-.
  destruct (export_params_of_fields r) as (Hk & Hn & Hw & Hh & Ht & Hf & Hc & Ho).
  destruct (resolution_of_positive (output_ratio_text r)) as [Hwpos Hhpos].
  apply andb_true_iff in Hdir as [_ Hdir].
  split; [done|]. split; [by exists df|]. split; [by rewrite Ho|].
  split; [by rewrite Hw|]. split; [by rewrite Hh|]. split; [done|].
  split. { rewrite Hf, Ht. unfold Qle. cbn. lia. }
  split; [by rewrite Hn|].
  apply select_files_succeeds; [rewrite Hk; lia | done].
Qed.

(** The table and the widgets of the desk: a plan with the three files of
    the category, and three of them selected. *)
Lemma X16_launched_jobs_can_select_witness :
  exists params sel w',
    export_plan (Some Desk.table) Desk.picked Scenario.start
      = inr (["wide.png"; "film.MP4"], params)
    /\ select_files Scenario.env ["wide.png"; "film.MP4"] params Scenario.start
       = (Ok sel, w')
    /\ length sel = 3%nat.
Proof.
  assert (Hplan : export_plan (Some Desk.table) Desk.picked Scenario.start
                  = inr (["wide.png"; "film.MP4"], export_params_of Desk.picked))
    by (vm_compute; reflexivity).
  destruct (X16_launched_jobs_can_select Scenario.env _ _ _ Scenario.start _ _ Hplan)
    as (_ & _ & _ & _ & _ & _ & _ & _ & sel & Hsel & Hlen).
  - unfold within_ranges. cbn. lia.
  - eexists _, sel, _. split; [exact Hplan|]. split; [exact Hsel | exact Hlen].
Defined.




